(** * minuet-web: a shallow embedding of [src/index.ts]

    The class [MinuetWeb] serves static content: it resolves a request URL
    against one or more mounted root directories, loads the bytes from an
    in-memory buffer or from disk, and writes the response.

    The object's fields become a record that every method takes and
    returns; the [ServerResponse] is a second record threaded the same way;
    the filesystem is an explicit [Disk] value that the [fs] calls consult.
    JavaScript objects used as dictionaries ([rootDir], [mimes], [headers],
    [buffers]) are association lists in insertion order, because
    [Object.keys] order decides which mount wins. *)

From Stdlib Require Import String Ascii List ZArith Bool Lia DecimalString.
Import ListNotations.
Open Scope string_scope.

Set Implicit Arguments.

(** ** JavaScript string primitives used by the source *)

Module JS.

(** [s.indexOf(p) === 0] *)
Fixpoint startsWith (p s : string) : bool :=
  match p, s with
  | EmptyString, _ => true
  | String a p', String b s' => Ascii.eqb a b && startsWith p' s'
  | String _ _, EmptyString => false
  end.

(** [s.substring(n)]; past the end it is the empty string *)
Fixpoint substringFrom (n : nat) (s : string) : string :=
  match n, s with
  | O, _ => s
  | S n', String _ s' => substringFrom n' s'
  | S _, EmptyString => EmptyString
  end.

(** [s.split(pat).join(rep)] for a non-empty literal [pat]: every
    occurrence of [pat], found left to right without overlap, becomes
    [rep].  [skip] counts the characters of a match still to be dropped. *)
Fixpoint splitJoinFrom (pat rep : string) (skip : nat) (s : string) : string :=
  match s with
  | EmptyString => EmptyString
  | String c s' =>
      match skip with
      | S k => splitJoinFrom pat rep k s'
      | O =>
          if startsWith pat s
          then rep ++ splitJoinFrom pat rep (String.length pat - 1) s'
          else String c (splitJoinFrom pat rep O s')
      end
  end.

Definition splitJoin (pat rep s : string) : string :=
  splitJoinFrom pat rep 0 s.

(** [s.split(c)[0]] *)
Fixpoint splitFirst (c : ascii) (s : string) : string :=
  match s with
  | EmptyString => EmptyString
  | String a s' => if Ascii.eqb a c then EmptyString else String a (splitFirst c s')
  end.

(** [s.split(c).length] *)
Fixpoint splitLength (c : ascii) (s : string) : nat :=
  match s with
  | EmptyString => 1
  | String a s' => if Ascii.eqb a c then S (splitLength c s') else splitLength c s'
  end.

(** [s[s.length - 1] == c] *)
Fixpoint lastCharIs (c : ascii) (s : string) : bool :=
  match s with
  | EmptyString => false
  | String a s' =>
      match s' with
      | EmptyString => Ascii.eqb a c
      | String _ _ => lastCharIs c s'
      end
  end.

(** [s.substring(0, s.length - 1)] *)
Fixpoint dropLast (s : string) : string :=
  match s with
  | EmptyString => EmptyString
  | String a s' =>
      match s' with
      | EmptyString => EmptyString
      | String _ _ => String a (dropLast s')
      end
  end.

(** [s.slice(-2)] *)
Definition sliceLast2 (s : string) : string :=
  substringFrom (String.length s - 2) s.

(** a non-negative number converted to a string *)
Definition ofNat (n : nat) : string :=
  NilEmpty.string_of_uint (Nat.to_uint n).

(** ** Objects used as dictionaries

    Own string-keyed properties in insertion order.  Assigning to an
    existing key keeps its position, a new key goes last, as in
    [Object.keys].  Keys that look like array indices, which JavaScript
    would list first, are outside this model.  A property inherited from
    [Object.prototype] is reached by [property] below. *)
Definition obj (V : Type) : Type := list (string * V).

Fixpoint get {V} (k : string) (o : obj V) : option V :=
  match o with
  | [] => None
  | (k', v) :: o' => if String.eqb k k' then Some v else get k o'
  end.

Fixpoint set {V} (k : string) (v : V) (o : obj V) : obj V :=
  match o with
  | [] => [(k, v)]
  | (k', v') :: o' =>
      if String.eqb k k' then (k', v) :: o' else (k', v') :: set k v o'
  end.

Definition keys {V} (o : obj V) : list string := map fst o.

Definition has {V} (k : string) (o : obj V) : bool :=
  match get k o with Some _ => true | None => false end.

(** the own property [o[k]], and failing that the property inherited from
    [Object.prototype].  An inherited value is a function, or the
    prototype itself for [__proto__]; it is truthy, and it stands here as
    the string it is converted to where it is sent. *)
Definition objectPrototype : obj string :=
  [ ("constructor", "function Object() { [native code] }");
    ("__defineGetter__", "function __defineGetter__() { [native code] }");
    ("__defineSetter__", "function __defineSetter__() { [native code] }");
    ("hasOwnProperty", "function hasOwnProperty() { [native code] }");
    ("__lookupGetter__", "function __lookupGetter__() { [native code] }");
    ("__lookupSetter__", "function __lookupSetter__() { [native code] }");
    ("isPrototypeOf", "function isPrototypeOf() { [native code] }");
    ("propertyIsEnumerable", "function propertyIsEnumerable() { [native code] }");
    ("toString", "function toString() { [native code] }");
    ("valueOf", "function valueOf() { [native code] }");
    ("__proto__", "[object Object]");
    ("toLocaleString", "function toLocaleString() { [native code] }") ].

Definition property (k : string) (o : obj string) : option string :=
  match get k o with
  | Some v => Some v
  | None => get k objectPrototype
  end.

(** [s.toLowerCase()] on the letters A to Z, the only ones a header name
    can hold *)
Definition lowerChar (c : ascii) : ascii :=
  let n := nat_of_ascii c in
  if Nat.leb 65 n && Nat.leb n 90 then ascii_of_nat (n + 32) else c.

Fixpoint toLowerCase (s : string) : string :=
  match s with
  | EmptyString => EmptyString
  | String c s' => String (lowerChar c) (toLowerCase s')
  end.

Fixpoint allChars (test : ascii -> bool) (s : string) : bool :=
  match s with
  | EmptyString => true
  | String c s' => test c && allChars test s'
  end.

(** the property key an [undefined] value is converted to *)
Definition propertyKey (k : option string) : string :=
  match k with Some k' => k' | None => "undefined" end.

(** how a call completes *)
Inductive completion (A : Type) : Type :=
| Normal (a : A)
| Throw (message : string).
Arguments Throw {A} message.

End JS.

Import JS.

(** ** Node's [path] module (posix), as far as the source uses it *)

Module NodePath.

Fixpoint contains (c : ascii) (s : string) : bool :=
  match s with
  | EmptyString => false
  | String a s' => Ascii.eqb a c || contains c s'
  end.

(** the part after the last [c]; the whole string when there is none *)
Fixpoint afterLast (c : ascii) (s : string) : string :=
  match s with
  | EmptyString => EmptyString
  | String a s' =>
      if Ascii.eqb a c then afterLast c s'
      else if contains c s' then afterLast c s' else s
  end.

(** the part before the last [c], when there is one *)
Fixpoint beforeLast (c : ascii) (s : string) : option string :=
  match s with
  | EmptyString => None
  | String a s' =>
      match beforeLast c s' with
      | Some r => Some (String a r)
      | None => if Ascii.eqb a c then Some EmptyString else None
      end
  end.

Fixpoint trimTrailing (c : ascii) (s : string) : string :=
  match s with
  | EmptyString => EmptyString
  | String a s' =>
      let t := trimTrailing c s' in
      if Ascii.eqb a c && String.eqb t EmptyString then EmptyString else String a t
  end.

(** [path.basename(p)]: the last segment, trailing slashes ignored *)
Definition basename (p : string) : string :=
  afterLast "/" (trimTrailing "/" p).

(** [path.dirname(p)] *)
Definition dirname (p : string) : string :=
  if String.eqb p EmptyString then "."
  else
    match beforeLast "/" (trimTrailing "/" p) with
    | None => if startsWith "/" p then "/" else "."
    | Some h =>
        if String.eqb h EmptyString then "/"
        else if String.eqb h "/" then "//"
        else h
    end.

(** [path.extname(p)]: from the last dot of the last segment, and empty
    when that segment has no dot, starts with its only dot, or is [..] *)
Definition extname (p : string) : string :=
  let b := basename p in
  match beforeLast "." b with
  | None => EmptyString
  | Some pre =>
      if String.eqb pre EmptyString then EmptyString
      else if String.eqb b ".." then EmptyString
      else String "." (afterLast "." b)
  end.

End NodePath.

(** ** The filesystem *)

(** A [Buffer] is a sequence of bytes; a Rocq string is a sequence of
    8-bit characters, so [toString] is the identity. *)
Definition Buffer : Type := string.

(** One entry of [readdirSync(dir, {withFileTypes: true})].  A directory
    entry carries the listing that the recursive scan reads next, a file
    entry the bytes that [readFileSync] returns; [statSync().size] is their
    number.  The other entries are those on which the scan throws: a
    directory that cannot be listed, an entry that is no directory and
    cannot be stat'ed (a dangling link, a file removed meanwhile), and a
    file of a given size that cannot be read. *)
#[warnings="-register-all"]
Inductive Dirent : Type :=
| File (name : string) (content : Buffer)
| Directory (name : string) (list : list Dirent)
| LockedDirectory (name : string)
| BrokenEntry (name : string)
| UnreadableFile (name : string) (size : Z).

Definition byteSize (content : Buffer) : Z := Z.of_nat (String.length content).

Record Disk : Type := mkDisk {
  (** [fs.readdirSync(path, {withFileTypes: true})]; [None] when it throws *)
  readdirSync : string -> option (list Dirent);
  (** [fs.existsSync(path)] *)
  existsSync : string -> bool;
  (** [fs.statSync(path).isFile()] of an existing path *)
  statIsFile : string -> bool;
  (** [fs.readFileSync(path)]; [None] when it throws *)
  readFileSync : string -> option Buffer;
  (** [__dirname] of the module *)
  moduleDir : string
}.

(** ** The response *)

Record ServerResponse : Type := Response {
  statusCode : Z;
  sentHeaders : obj string;
  body : string;
  ended : bool;
  (** [res.headersSent]: Node sends the headers with the first write or
      with the end, or when they are flushed before any of them *)
  headersSent : bool
}.

(** a response by its status, headers and body, ended or not, whose
    headers went out with the body or the end *)
Definition mkResponse (code : Z) (sent : obj string) (content : string) (isEnded : bool)
    : ServerResponse :=
  Response code sent content isEnded (isEnded || negb (String.eqb content EmptyString)).

(** A response nobody has touched: Node's default status is 200. *)
Definition newResponse : ServerResponse := mkResponse 200 [] EmptyString false.

Definition res_statusCode (code : Z) (res : ServerResponse) : ServerResponse :=
  Response code (sentHeaders res) (body res) (ended res) (headersSent res).

(** a character of an http token: a letter, a digit or one of
    [^_`-!#$%&'*+.|~] *)
Definition tokenChar (c : ascii) : bool :=
  let n := nat_of_ascii c in
  (Nat.leb 97 n && Nat.leb n 122) || (Nat.leb 65 n && Nat.leb n 90)
  || (Nat.leb 48 n && Nat.leb n 57)
  || existsb (Nat.eqb n) [94; 95; 96; 45; 33; 35; 36; 37; 38; 39; 42; 43; 46; 124; 126].

(** a character allowed in a header value: a tab or anything from the
    space on, except the delete character *)
Definition headerChar (c : ascii) : bool :=
  let n := nat_of_ascii c in
  Nat.eqb n 9 || (Nat.leb 32 n && negb (Nat.eqb n 127)).

Definition validHeaderName (name : string) : bool :=
  negb (String.eqb name EmptyString) && allChars tokenChar name.

Definition validHeaderValue (value : string) : bool := allChars headerChar value.

(** [res.setHeader(name, value)]: it throws once the headers are sent, on a
    name that is no token and on a value with a forbidden character; the
    header is kept under the name in lower case. *)
Definition res_setHeader (name value : string) (res : ServerResponse)
    : completion ServerResponse :=
  if headersSent res then Throw "ERR_HTTP_HEADERS_SENT"
  else if negb (validHeaderName name) then Throw "ERR_INVALID_HTTP_TOKEN"
  else if negb (validHeaderValue value) then Throw "ERR_INVALID_CHAR"
  else Normal (Response (statusCode res)
                 (set (toLowerCase name) value (sentHeaders res)) (body res) (ended res)
                 (headersSent res)).

(** [res.write(chunk)] and [res.end()]; either sends the headers *)
Definition res_write (chunk : string) (res : ServerResponse) : ServerResponse :=
  Response (statusCode res) (sentHeaders res) (body res ++ chunk) (ended res) true.
Definition res_end (res : ServerResponse) : ServerResponse :=
  Response (statusCode res) (sentHeaders res) (body res) true true.

(** ** The [MinuetWeb] object *)

(** [rootDir : string | {[url : string] : string}] *)
Inductive RootDir : Type :=
| RootString (dir : string)
| RootMap (map : obj string).

(** [notFound : string | boolean] *)
Inductive NotFound : Type :=
| NotFoundBool (b : bool)
| NotFoundPage (page : string).

(** [enum MinuetWebBufferName] *)
Module MinuetWebBufferName.
Definition notFound : string := "#notfound".
Definition listNavigator : string := "#listNavigator".
End MinuetWebBufferName.

Definition DefaultMimes : obj string :=
  [ ("jpg", "image/jpeg"); ("png", "image/png"); ("gif", "image/jig");
    ("tif", "image/tiff"); ("tiff", "image/tiff"); ("svg", "image/svg+xml");
    ("ico", "image/vnd.microsoft.icon"); ("mp3", "audio/mp3");
    ("aac", "audio/aac"); ("txt", "text/plain"); ("css", "text/css");
    ("js", "text/javascript"); ("html", "text/html"); ("htm", "text/html");
    ("xml", "text/xml"); ("woff", "font/woff"); ("woff2", "font/woff2");
    ("ttf", "font/ttf"); ("zip", "application/zip"); ("bz", "application/x-bzip");
    ("gz", "application/gzip"); ("7z", "application/x-7z-compressed");
    ("csv", "text/csv") ].

(** The fields of the class.  [logger] is the injected collaborator: only
    its presence matters here, and what it is asked to write is recorded in
    [accessLog] as (log mode, request url). *)
Record MinuetWeb : Type := mkMinuetWeb {
  url : string;
  rootDir : RootDir;
  mimes : obj string;
  headers : obj string;
  buffering : bool;
  bufferingMaxSize : Z;
  directReading : bool;
  notFound : NotFound;
  directoryIndexs : list string;
  listNavigator : bool;
  logAccess : option string;
  buffers : obj Buffer;
  logger : bool;
  accessLog : list (string * string)
}.

(** the field initialisers of the class *)
Definition initial : MinuetWeb :=
  mkMinuetWeb "/" (RootString "htdocs") DefaultMimes [] true 300000 false
    (NotFoundBool false) [] false None [] false [].

Definition with_rootDir (r : RootDir) (s : MinuetWeb) : MinuetWeb :=
  mkMinuetWeb (url s) r (mimes s) (headers s) (buffering s)
    (bufferingMaxSize s) (directReading s) (notFound s) (directoryIndexs s)
    (listNavigator s) (logAccess s) (buffers s) (logger s) (accessLog s).

Definition with_headers (h : obj string) (s : MinuetWeb) : MinuetWeb :=
  mkMinuetWeb (url s) (rootDir s) (mimes s) h (buffering s)
    (bufferingMaxSize s) (directReading s) (notFound s) (directoryIndexs s)
    (listNavigator s) (logAccess s) (buffers s) (logger s) (accessLog s).

Definition with_buffers (b : obj Buffer) (s : MinuetWeb) : MinuetWeb :=
  mkMinuetWeb (url s) (rootDir s) (mimes s) (headers s) (buffering s)
    (bufferingMaxSize s) (directReading s) (notFound s) (directoryIndexs s)
    (listNavigator s) (logAccess s) b (logger s) (accessLog s).

Definition with_accessLog (l : list (string * string)) (s : MinuetWeb) : MinuetWeb :=
  mkMinuetWeb (url s) (rootDir s) (mimes s) (headers s) (buffering s)
    (bufferingMaxSize s) (directReading s) (notFound s) (directoryIndexs s)
    (listNavigator s) (logAccess s) (buffers s) (logger s) l.

(** [interface MinuetWebOption]: every option may be left undefined *)
Record MinuetWebOption : Type := mkOption {
  opt_url : option string;
  opt_rootDir : option RootDir;
  opt_mimes : option (obj string);
  opt_headers : option (obj string);
  opt_buffering : option bool;
  opt_bufferingMaxSize : option Z;
  opt_directReading : option bool;
  opt_notFound : option NotFound;
  opt_directoryIndexs : option (list string);
  opt_listNavigator : option bool;
  opt_logAccess : option string
}.

Definition noOption : MinuetWebOption :=
  mkOption None None None None None None None None None None None.

(** [if (typeof this.rootDir == "string") this.rootDir = { "/" : this.rootDir }] *)
Definition liftRootDir (s : MinuetWeb) : MinuetWeb :=
  match rootDir s with
  | RootString dir => with_rootDir (RootMap [("/", dir)]) s
  | RootMap _ => s
  end.

(** the mounts (url prefix, directory) that the lifted [rootDir] lists, in
    [Object.keys] order *)
Definition mounts (s : MinuetWeb) : obj string :=
  match rootDir s with
  | RootString dir => [("/", dir)]
  | RootMap map => map
  end.

(** [.split("//").join("/")] *)
Definition collapse (p : string) : string := splitJoin "//" "/" p.

(** *** getMime, hasMine *)

Definition getMime (s : MinuetWeb) (target : string) : option string :=
  let ext := substringFrom 1 (NodePath.extname target) in
  property ext (mimes s).

(** a string is truthy when it is defined and not empty *)
Definition truthy (v : option string) : bool :=
  match v with
  | Some x => negb (String.eqb x EmptyString)
  | None => false
  end.

Definition hasMine (s : MinuetWeb) (target : string) : bool :=
  let ext := substringFrom 1 (NodePath.extname target) in
  if String.eqb ext EmptyString then false
  else if negb (truthy (property ext (mimes s))) then false
  else true.

(** *** addBuffer *)

(** the loop over the mounts; [fileName] is the variable it assigns *)
Fixpoint addBuffer_fileName (filePath : string) (c : obj string)
    (fileName : option string) : option string :=
  match c with
  | [] => fileName
  | (burl, rootDir) :: c' =>
      if startsWith rootDir filePath then
        let url2 := if String.eqb burl "/" then EmptyString else burl in
        addBuffer_fileName filePath c'
          (Some (collapse (url2 ++ substringFrom (String.length rootDir) filePath)))
      else addBuffer_fileName filePath c' fileName
  end.

Definition addBuffer (s : MinuetWeb) (filePath : string) (content : Buffer)
    : MinuetWeb :=
  let s := liftRootDir s in
  let fileName := addBuffer_fileName filePath (mounts s) None in
  with_buffers (set (propertyKey fileName) content (buffers s)) s.

(** *** search *)

(** a [for] loop over a list whose body may throw: the first throw ends
    the loop with the object as it is then *)
Fixpoint forEach {A : Type} (body : MinuetWeb -> A -> MinuetWeb * completion unit)
    (l : list A) (s : MinuetWeb) : MinuetWeb * completion unit :=
  match l with
  | [] => (s, Normal tt)
  | a :: l' =>
      match body s a with
      | (s', Normal _) => forEach body l' s'
      | (s', Throw e) => (s', Throw e)
      end
  end.

(** the body of the loop of [search] for one entry of the listing of
    [targetPath]; [readdirSync] of a subdirectory, [statSync] and
    [readFileSync] of a file throw where the entry says so *)
Fixpoint search_entry (targetPath url : string) (s : MinuetWeb) (l_ : Dirent)
    : MinuetWeb * completion unit :=
  match l_ with
  | Directory name list =>
      forEach (search_entry (targetPath ++ "/" ++ name) url) list s
  | LockedDirectory name => (s, Throw "EACCES")
  | File name content =>
      if negb (hasMine s name) then (s, Normal tt)
      else
        let filePath := targetPath ++ "/" ++ name in
        if (byteSize content >? bufferingMaxSize s)%Z then (s, Normal tt)
        else (addBuffer s filePath content, Normal tt)
  | BrokenEntry name =>
      if negb (hasMine s name) then (s, Normal tt)
      else (s, Throw "ENOENT")
  | UnreadableFile name size =>
      if negb (hasMine s name) then (s, Normal tt)
      else if (size >? bufferingMaxSize s)%Z then (s, Normal tt)
      else (s, Throw "EACCES")
  end.

(** [search] once [readdirSync(targetPath)] has returned [list] *)
Definition search_list (targetPath url : string) (list : list Dirent)
    (s : MinuetWeb) : MinuetWeb * completion unit :=
  forEach (search_entry targetPath url) list s.

Definition search (s : MinuetWeb) (d : Disk) (targetPath url : string)
    : MinuetWeb * completion unit :=
  match readdirSync d targetPath with
  | None => (s, Throw "ENOENT")
  | Some list => search_list targetPath url list s
  end.

(** *** updateBuffer, setting, constructor, addRootDir *)

Fixpoint updateBuffer_mounts (d : Disk) (r : obj string) (s : MinuetWeb)
    : MinuetWeb * completion unit :=
  match r with
  | [] => (s, Normal tt)
  | (url, rootDir) :: r' =>
      match search s d rootDir url with
      | (s', Normal _) => updateBuffer_mounts d r' s'
      | (s', Throw e) => (s', Throw e)
      end
  end.

Definition updateBuffer (s : MinuetWeb) (d : Disk) : MinuetWeb * completion unit :=
  if buffering s then
    let s := with_buffers [] s in
    let s := liftRootDir s in
    match updateBuffer_mounts d (mounts s) s with
    | (s, Throw e) => (s, Throw e)
    | (s, Normal _) =>
        let step1 :=
          match notFound s with
          | NotFoundPage page =>
              match readFileSync d page with
              | None => (s, Throw "ENOENT")
              | Some content =>
                  (with_buffers (set MinuetWebBufferName.notFound content (buffers s)) s,
                   Normal tt)
              end
          | NotFoundBool _ => (s, Normal tt)
          end in
        match step1 with
        | (s, Throw e) => (s, Throw e)
        | (s, Normal _) =>
            if listNavigator s then
              match readFileSync d (moduleDir d ++ "/listnavigator/index.html") with
              | None => (s, Throw "ENOENT")
              | Some content =>
                  (with_buffers
                     (set MinuetWebBufferName.listNavigator content (buffers s)) s,
                   Normal tt)
              end
            else (s, Normal tt)
        end
    end
  else (s, Normal tt).

Definition orElse {A} (o : option A) (a : A) : A :=
  match o with Some x => x | None => a end.

Definition setting (s : MinuetWeb) (d : Disk) (options : MinuetWebOption)
    : MinuetWeb * completion unit :=
  let s :=
    mkMinuetWeb
      (orElse (opt_url options) (url s))
      (orElse (opt_rootDir options) (rootDir s))
      (orElse (opt_mimes options) (mimes s))
      (orElse (opt_headers options) (headers s))
      (orElse (opt_buffering options) (buffering s))
      (orElse (opt_bufferingMaxSize options) (bufferingMaxSize s))
      (orElse (opt_directReading options) (directReading s))
      (orElse (opt_notFound options) (notFound s))
      (orElse (opt_directoryIndexs options) (directoryIndexs s))
      (orElse (opt_listNavigator options) (listNavigator s))
      (match opt_logAccess options with Some m => Some m | None => logAccess s end)
      (buffers s) (logger s) (accessLog s) in
  updateBuffer s d.

(** [new MinuetWeb(options)] *)
Definition constructor (d : Disk) (options : option MinuetWebOption)
    : MinuetWeb * completion unit :=
  match options with
  | Some o => setting initial d o
  | None => updateBuffer initial d
  end.

Definition addRootDir (s : MinuetWeb) (d : Disk) (url rootDir : string)
    : MinuetWeb * completion unit :=
  let s := liftRootDir s in
  let s := with_rootDir (RootMap (set url rootDir (mounts s))) s in
  if buffering s then search s d rootDir url else (s, Normal tt).

(** *** setHeader *)

(** the loop over [Object.keys(this.headers)]; a throw of
    [res.setHeader] ends it with the headers set so far *)
Fixpoint setHeader_loop (c : obj string) (res : ServerResponse)
    : ServerResponse * completion unit :=
  match c with
  | [] => (res, Normal tt)
  | (name, value) :: c' =>
      match res_setHeader name value res with
      | Normal res' => setHeader_loop c' res'
      | Throw e => (res, Throw e)
      end
  end.

Definition setHeader (s : MinuetWeb) (res : ServerResponse)
    : ServerResponse * completion unit :=
  setHeader_loop (headers s) res.

(** *** readFile *)

Record FileResult : Type := mkFileResult {
  content : Buffer;
  mime : option string
}.

(** [fs.existsSync(p)] and then [fs.statSync(p).isFile()] *)
Definition isRegularFile (d : Disk) (p : string) : bool :=
  if existsSync d p then statIsFile d p else false.

(** [targetFullPath] for the direct file of a mount *)
Definition targetFullPath (s : MinuetWeb) (rootDir burl targetPath : string) : string :=
  let p :=
    if negb (String.eqb (url s) "/")
    then rootDir ++ "/" ++
         substringFrom (String.length burl)
           (substringFrom (String.length (url s)) targetPath)
    else rootDir ++ "/" ++ substringFrom (String.length burl) targetPath in
  collapse p.

(** [targetFullPath] for a directory-index file of a mount *)
Definition targetFullPathIndex (s : MinuetWeb) (rootDir burl targetPath index : string)
    : string :=
  let p :=
    if negb (String.eqb (url s) "/")
    then rootDir ++ "/" ++
         substringFrom (String.length burl)
           (substringFrom (String.length (url s)) targetPath) ++ "/" ++ index
    else rootDir ++ "/" ++ substringFrom (String.length burl) targetPath
         ++ "/" ++ index in
  collapse p.

(** the inner loop over [directoryIndexs]: the path it assigns to
    [decisionPath] before its [break], if any *)
Fixpoint readFile_indexes (s : MinuetWeb) (d : Disk) (rootDir burl targetPath : string)
    (indexes : list string) : option string :=
  match indexes with
  | [] => None
  | index :: indexes' =>
      let p := targetFullPathIndex s rootDir burl targetPath index in
      if isRegularFile d p then Some p
      else readFile_indexes s d rootDir burl targetPath indexes'
  end.

(** the outer loop over the mounts, threading [decisionPath]: a direct hit
    leaves the loop, an index hit only leaves the inner loop *)
Fixpoint readFile_mounts (s : MinuetWeb) (d : Disk) (targetPath : string)
    (c : obj string) (decisionPath : option string) : option string :=
  match c with
  | [] => decisionPath
  | (burl, rootDir) :: c' =>
      let p := targetFullPath s rootDir burl targetPath in
      if isRegularFile d p then Some p
      else
        match readFile_indexes s d rootDir burl targetPath (directoryIndexs s) with
        | Some p' => readFile_mounts s d targetPath c' (Some p')
        | None => readFile_mounts s d targetPath c' decisionPath
        end
  end.

(** [Normal None] is the bare [return;].  A path assigned to [decisionPath]
    contains a slash, so [!decisionPath] holds exactly when none was
    assigned. *)
Definition readFile (s : MinuetWeb) (d : Disk) (targetPath : string)
    : MinuetWeb * completion (option FileResult) :=
  match (if buffering s then get targetPath (buffers s) else None) with
  | Some content => (s, Normal (Some (mkFileResult content (getMime s targetPath))))
  | None =>
      let s := liftRootDir s in
      match readFile_mounts s d targetPath (mounts s) None with
      | None => (s, Normal None)
      | Some decisionPath =>
          match readFileSync d decisionPath with
          | None => (s, Throw "ENOENT")
          | Some content =>
              (s, Normal (Some (mkFileResult content (getMime s decisionPath))))
          end
      end
  end.

(** *** error *)

Definition error (s : MinuetWeb) (d : Disk) (res : ServerResponse)
    : ServerResponse * bool :=
  match notFound s with
  | NotFoundBool b =>
      if negb b then (res, false)
      else (res_end (res_statusCode 404 res), true)
  | NotFoundPage page =>
      let content :=
        if buffering s then get MinuetWebBufferName.notFound (buffers s)
        else readFileSync d page in
      match content with
      | Some content => (res_end (res_write content (res_statusCode 404 res)), true)
      | None => (res_end (res_write "ERROR" res), true)
      end
  end.

(** *** getUrl *)

(** the loop over the mounts that sets [exists] *)
Definition getUrl_exists (d : Disk) (c : obj string) (url_ : string) : bool :=
  existsb (fun '(burl, rootDir) => existsSync d (collapse (rootDir ++ "/" ++ url_))) c.

(** the loop over [urlList], threading [this] and [decisionUrl] *)
Fixpoint getUrl_loop (s : MinuetWeb) (d : Disk) (urlList : list string)
    (decisionUrl : string) : MinuetWeb * string :=
  match urlList with
  | [] => (s, decisionUrl)
  | url_ :: urlList' =>
      if buffering s && has url_ (buffers s) then (s, url_)
      else if buffering s && negb (directReading s)
      then getUrl_loop s d urlList' decisionUrl
      else
        let s := liftRootDir s in
        if getUrl_exists d (mounts s) url_ then (s, url_)
        else getUrl_loop s d urlList' decisionUrl
  end.

Definition getUrl (s : MinuetWeb) (d : Disk) (baseUrl : string) : MinuetWeb * string :=
  let url := splitFirst "?" baseUrl in
  let url :=
    if negb (String.eqb url "/") && lastCharIs "/" url then dropLast url else url in
  let urlList := map (fun index => collapse (url ++ "/" ++ index)) (directoryIndexs s) in
  getUrl_loop s d urlList baseUrl.

(** *** getDirectories, isDirectory *)

Definition getDirectories (s : MinuetWeb) (url : string) : list string :=
  if buffering s then
    filter
      (fun file =>
         startsWith url file &&
         Nat.eqb (splitLength "/" (substringFrom (String.length url) file)) 2)
      (keys (buffers s))
  else [].

(** what [new Date()] reports *)
Record Date : Type := mkDate {
  getFullYear : nat;
  getMonth : nat;
  getDate : nat;
  getHours : nat;
  getMinutes : nat;
  getSeconds : nat
}.

Definition nowDate (d_ : Date) : string :=
  ofNat (getFullYear d_) ++ "/" ++ sliceLast2 ("0" ++ ofNat (getMonth d_ + 1))
  ++ "/" ++ sliceLast2 ("0" ++ ofNat (getDate d_))
  ++ " " ++ sliceLast2 ("0" ++ ofNat (getHours d_))
  ++ ":" ++ sliceLast2 ("0" ++ ofNat (getMinutes d_))
  ++ ":" ++ sliceLast2 ("0" ++ ofNat (getSeconds d_)).

(** the double-quote character *)
Definition dquote : string := String "034"%char EmptyString.

(** the row [td] of one listed entry *)
Definition listRow (l_ : string) : string :=
  "<tr><td>-</td><td><a href=" ++ dquote ++ l_ ++ dquote ++ ">"
  ++ NodePath.basename l_ ++ "</a></td></tr>".

(** [Throw] is the [TypeError] of calling [toString] on the missing
    template *)
Definition isDirectory (s : MinuetWeb) (d_ : Date) (req_url : string)
    (res : ServerResponse) : ServerResponse * completion bool :=
  let url := splitFirst "?" req_url in
  let url := if lastCharIs "/" url then dropLast url else url in
  if buffering s then
    match get MinuetWebBufferName.listNavigator (buffers s) with
    | None => (res, Throw "TypeError")
    | Some template =>
        let content := template in
        let content := splitJoin "{url}" url content in
        let content := splitJoin "{back}" (NodePath.dirname url) content in
        let list := getDirectories s url in
        let listStr := fold_left (fun listStr l_ => listStr ++ listRow l_) list EmptyString in
        let content := splitJoin "{lists}" listStr content in
        let content := splitJoin "{comment}" ("Minuet Server | " ++ nowDate d_) content in
        (res_end (res_write content res), Normal true)
    end
  else (res, Normal true).

(** *** log *)

Definition log (s : MinuetWeb) (logMode : option string) (req_url : string)
    : MinuetWeb :=
  match logMode with
  | None => s
  | Some mode =>
      if String.eqb mode EmptyString then s
      else if logger s then with_accessLog (accessLog s ++ [(mode, req_url)]) s
      else s
  end.

(** *** listen *)

(** the [try] block of [listen]: the loaded content and its mime type, or
    nothing when [readFile] threw, returned nothing, or found no mime type *)
Definition loaded (r : completion (option FileResult)) : option (Buffer * string) :=
  match r with
  | Normal (Some buff) =>
      match mime buff with
      | Some m => if truthy (Some m) then Some (content buff, m) else None
      | None => None
      end
  | Normal None => None
  | Throw _ => None
  end.

(** the statements of [listen] after the [try] block; they are outside
    it, so a throw of [setHeader] leaves [listen] *)
Definition respondOk (s : MinuetWeb) (req_url : string) (res : ServerResponse)
    (content : Buffer) (mime : string) : MinuetWeb * ServerResponse * completion unit :=
  let res := res_statusCode 200 res in
  let s := with_headers (set "content-type" mime (headers s)) s in
  match setHeader s res with
  | (res, Throw e) => (s, res, Throw e)
  | (res, Normal _) =>
      let res := res_write content res in
      let res := res_end res in
      let s := log s (logAccess s) req_url in
      (s, res, Normal tt)
  end.

Definition listen (s : MinuetWeb) (d : Disk) (d_ : Date) (req_url : string)
    (res : ServerResponse) : MinuetWeb * ServerResponse * completion bool :=
  let url0 := splitFirst "?" req_url in
  let '(s, url) := getUrl s d url0 in
  if String.eqb url EmptyString then
    if listNavigator s then
      match isDirectory s d_ req_url res with
      | (res, Throw e) => (s, res, Throw e)
      | (res, Normal true) => (s, res, Normal true)
      | (res, Normal false) =>
          let '(res, b) := error s d res in (s, res, Normal b)
      end
    else
      let '(res, b) := error s d res in (s, res, Normal b)
  else
    let '(s, r) := readFile s d url in
    match loaded r with
    | None => let '(res, b) := error s d res in (s, res, Normal b)
    | Some (content, mime) =>
        match respondOk s req_url res content mime with
        | (s, res, Normal _) => (s, res, Normal true)
        | (s, res, Throw e) => (s, res, Throw e)
        end
    end.

(** ** Disks given by a directory tree

    The concrete disks of the scenarios: [root] lists the working
    directory, and a relative path names the entry reached segment by
    segment, empty segments skipped, "." staying in place and ".." going
    up, the root being its own parent. *)

Module TreeDisk.

(** [p.split(c)] *)
Fixpoint segmentsFrom (c : ascii) (current : string) (p : string) : list string :=
  match p with
  | EmptyString => [current]
  | String a p' =>
      if Ascii.eqb a c then current :: segmentsFrom c EmptyString p'
      else segmentsFrom c (current ++ String a EmptyString) p'
  end.

Definition segments (p : string) : list string :=
  filter (fun seg => negb (String.eqb seg EmptyString)) (segmentsFrom "/" EmptyString p).

Definition direntName (e : Dirent) : string :=
  match e with
  | File name _ => name
  | Directory name _ => name
  | LockedDirectory name => name
  | BrokenEntry name => name
  | UnreadableFile name _ => name
  end.

Fixpoint findEntry (name : string) (l : list Dirent) : option Dirent :=
  match l with
  | [] => None
  | e :: l' => if String.eqb (direntName e) name then Some e else findEntry name l'
  end.

(** [ancestors] are the directories from the parent of [cur] up to the
    root; only a directory that can be listed is walked through *)
Fixpoint walk (segs : list string) (ancestors : list Dirent) (cur : Dirent)
    : option Dirent :=
  match segs with
  | [] => Some cur
  | seg :: segs' =>
      match cur with
      | Directory _ l =>
          if String.eqb seg "." then walk segs' ancestors cur
          else if String.eqb seg ".." then
            match ancestors with
            | [] => walk segs' [] cur
            | parent :: up => walk segs' up parent
            end
          else
            match findEntry seg l with
            | Some e => walk segs' (cur :: ancestors) e
            | None => None
            end
      | _ => None
      end
  end.

Definition isDirectoryEntry (e : Dirent) : bool :=
  match e with
  | Directory _ _ => true
  | LockedDirectory _ => true
  | _ => false
  end.

(** a path that ends in a slash names a directory or nothing *)
Definition lookup (root : list Dirent) (p : string) : option Dirent :=
  if String.eqb p EmptyString then None
  else
    match walk (segments p) [] (Directory EmptyString root) with
    | Some e => if lastCharIs "/" p && negb (isDirectoryEntry e) then None else Some e
    | None => None
    end.

Definition disk (root : list Dirent) (moduleDir : string) : Disk :=
  mkDisk
    (fun p => match lookup root p with
              | Some (Directory _ l) => Some l
              | _ => None
              end)
    (fun p => match lookup root p with
              | Some (BrokenEntry _) => false
              | Some _ => true
              | None => false
              end)
    (fun p => match lookup root p with
              | Some (File _ _) => true
              | Some (UnreadableFile _ _) => true
              | _ => false
              end)
    (fun p => match lookup root p with
              | Some (File _ content) => Some content
              | _ => None
              end)
    moduleDir.

End TreeDisk.

(** ** Notions and scenarios used by the properties *)

(** Two objects agree on everything but the representation of [rootDir],
    the response headers and the access log. *)
Definition sameSettings (s s' : MinuetWeb) : Prop :=
  url s' = url s /\ mounts s' = mounts s /\ mimes s' = mimes s /\
  buffering s' = buffering s /\ bufferingMaxSize s' = bufferingMaxSize s /\
  directReading s' = directReading s /\ notFound s' = notFound s /\
  directoryIndexs s' = directoryIndexs s /\ listNavigator s' = listNavigator s /\
  logAccess s' = logAccess s /\ logger s' = logger s.

(** the url key that [addBuffer] computes from one mount *)
Definition urlKey (burl rootDir filePath : string) : string :=
  collapse ((if String.eqb burl "/" then EmptyString else burl)
            ++ substringFrom (String.length rootDir) filePath).

(** a server that buffers files of at most three bytes *)
Definition tinyCap : MinuetWeb :=
  mkMinuetWeb "/" (RootString "htdocs") DefaultMimes [] true 3 false
    (NotFoundBool false) [] false None [] false [].

(** [s'] is [s], possibly with a bare [rootDir] lifted to a one-mount map *)
Definition lifted (s s' : MinuetWeb) : Prop := s' = s \/ s' = liftRootDir s.

(** [res'] is [res] after one of the five responses of [listen] *)
Inductive written (res : ServerResponse) : ServerResponse -> Prop :=
| written_content (c : obj string) (content : Buffer) (resH : ServerResponse) :
    setHeader_loop c (res_statusCode 200 res) = (resH, Normal tt) ->
    written res (res_end (res_write content resH))
| written_404_empty :
    written res (res_end (res_statusCode 404 res))
| written_404_page (content : Buffer) :
    written res (res_end (res_write content (res_statusCode 404 res)))
| written_ERROR :
    written res (res_end (res_write "ERROR" res))
| written_listing (s : MinuetWeb) (d_ : Date) (req_url : string) :
    buffering s = true ->
    has MinuetWebBufferName.listNavigator (buffers s) = true ->
    written res (fst (isDirectory s d_ req_url res)).

(** the content [listen] loads for a request: none for an empty resolved
    url, else what the [try] block around [readFile] yields *)
Definition served (s : MinuetWeb) (d : Disk) (req_url : string) : option (Buffer * string) :=
  let '(s1, url) := getUrl s d (splitFirst "?" req_url) in
  if String.eqb url EmptyString then None else loaded (snd (readFile s1 d url)).

(** 5 January 2024, 13:04:59 *)
Definition someDate : Date := mkDate 2024 0 5 13 4 59.

(** Scenario B: [notFound] is true and nothing is served under "htdocs" *)
Definition scenarioB : MinuetWeb :=
  mkMinuetWeb "/" (RootMap [("/", "htdocs")]) DefaultMimes [] true 300000 false
    (NotFoundBool true) [] false None [] false [].

(** a disk whose "htdocs" is empty *)
Definition scenarioB_disk : Disk := TreeDisk.disk [Directory "htdocs" []] "lib".

(** a server without buffering that is asked to list directories *)
Definition unbufferedNavigator : MinuetWeb :=
  mkMinuetWeb "/" (RootString "htdocs") DefaultMimes [] false 300000 false
    (NotFoundBool false) [] true None [] false [].

(** a server whose store holds one text file *)
Definition oneTextFile : MinuetWeb :=
  mkMinuetWeb "/" (RootMap [("/", "htdocs")]) DefaultMimes [] true 300000 false
    (NotFoundBool false) [] false None [("/a.txt", "hi")] false [].

(** Scenario C with the page missing from the store *)
Definition missingPage : MinuetWeb :=
  mkMinuetWeb "/" (RootMap [("/", "htdocs")]) DefaultMimes [] true 300000 false
    (NotFoundPage "404.html") [] false None [] false [].

(** Scenario D: "dirA" and "dirB" each hold a file "x.txt" *)
Definition scenarioD_disk (contentA contentB : Buffer) : Disk :=
  TreeDisk.disk
    [ Directory "dirA" [File "x.txt" contentA];
      Directory "dirB" [File "x.txt" contentB] ]
    "lib".

(** [{rootDir: {"/a": "dirA", "/b": "dirB"}, buffering}] *)
Definition scenarioD_options (buffering : bool) : MinuetWebOption :=
  mkOption None (Some (RootMap [("/a", "dirA"); ("/b", "dirB")])) None None
    (Some buffering) None None None None None None.

(** Scenario E: "htdocs/docs" holds two text files; the listing template
    of the package, whatever its text, sits under the module directory *)
Definition scenarioE_disk (template : Buffer) : Disk :=
  TreeDisk.disk
    [ Directory "htdocs" [Directory "docs" [File "a.txt" "A"; File "b.txt" "B"]];
      Directory "lib" [Directory "listnavigator" [File "index.html" template]] ]
    "lib".

(** [{listNavigator: true}] *)
Definition scenarioE_options : MinuetWebOption :=
  mkOption None None None None None None None None None (Some true) None.

(** both mount directories hold "x/index.html" *)
Definition twoIndexes_disk : Disk :=
  TreeDisk.disk
    [ Directory "dirA" [Directory "x" [File "index.html" "A-index"]];
      Directory "dirB" [Directory "x" [File "index.html" "B-index"]] ]
    "lib".

(** two mounts read from disk, with one directory-index name *)
Definition twoMounts : MinuetWeb :=
  mkMinuetWeb "/" (RootMap [("/a", "dirA"); ("/b", "dirB")]) DefaultMimes [] false
    300000 false (NotFoundBool false) ["index.html"] false None [] false [].

(** "dirA" holds "x/index.html" and nothing else *)
Definition mountA_disk : Disk :=
  TreeDisk.disk [Directory "dirA" [Directory "x" [File "index.html" "A-index"]]] "lib".

(** the single mount "/a" on "dirA", read from disk *)
Definition mountA : MinuetWeb :=
  mkMinuetWeb "/" (RootMap [("/a", "dirA")]) DefaultMimes [] false
    300000 false (NotFoundBool false) ["index.html"] false None [] false [].

(** a directory mounted under "/" and one of its subdirectories under "/s" *)
Definition nestedMounts : MinuetWeb :=
  mkMinuetWeb "/" (RootMap [("/", "srv"); ("/s", "srv/sub"); ("/t", "tmp")])
    DefaultMimes [] true 300000 false (NotFoundBool false) [] false None [] false [].

(** a disk with a not-found page beside an empty "htdocs" *)
Definition pageDisk : Disk :=
  TreeDisk.disk [Directory "htdocs" []; File "404.html" "<h1>gone</h1>"] "lib".

(** the request path that [getUrl] appends the index names to: the query
    string and one trailing slash removed *)
Definition requestDir (baseUrl : string) : string :=
  let url := splitFirst "?" baseUrl in
  if negb (String.eqb url "/") && lastCharIs "/" url then dropLast url else url.

(** an entry of [urlList] *)
Definition candidateUrl (baseUrl index : string) : string :=
  collapse (requestDir baseUrl ++ "/" ++ index).

(** the first element a test accepts, and a fallback when there is none *)
Definition firstOr (test : string -> bool) (l : list string) (fallback : string) : string :=
  match find test l with
  | Some u => u
  | None => fallback
  end.

(** Scenario A: "htdocs/index.html" buffered, "index.html" an index name *)
Definition scenarioA : MinuetWeb :=
  mkMinuetWeb "/" (RootMap [("/", "htdocs")]) DefaultMimes [] true 300000 false
    (NotFoundBool false) ["index.htm"; "index.html"] false None
    [("/index.html", "<p>hello</p>")] false [].

(** a buffering server whose store missed a file that is on disk *)
Definition missedFile : MinuetWeb :=
  mkMinuetWeb "/" (RootMap [("/a", "dirA"); ("/b", "dirB")]) DefaultMimes [] true
    300000 false (NotFoundBool false) [] false None [] false [].

(** a mount with no regular file for the request, direct or index *)
Definition nothingUnder (s : MinuetWeb) (d : Disk) (targetPath : string)
    (m : string * string) : Prop :=
  isRegularFile d (targetFullPath s (snd m) (fst m) targetPath) = false /\
  forall index, In index (directoryIndexs s) ->
    isRegularFile d (targetFullPathIndex s (snd m) (fst m) targetPath index) = false.

(** a server configured with response headers of its own *)
Definition withHeaders : MinuetWeb :=
  mkMinuetWeb "/" (RootMap [("/", "htdocs")]) DefaultMimes
    [("Cache-Control", "no-store"); ("content-type", "application/json")]
    true 300000 false (NotFoundBool false) [] false None [("/a.txt", "hi")] false [].

(** the value of the last entry of [h] whose name is [n] up to the case
    of its letters, [n] being in lower case *)
Fixpoint sentValue (n : string) (h : obj string) : option string :=
  match h with
  | [] => None
  | (name, value) :: h' =>
      match sentValue n h' with
      | Some v => Some v
      | None => if String.eqb (toLowerCase name) n then Some value else None
      end
  end.

(** [onListen] awaits [this.web.listen(req, res)] inside [try]; the
    [catch] returns nothing.  [None] is that [undefined]. *)
Definition onListen (web : MinuetWeb) (d : Disk) (d_ : Date) (req_url : string)
    (res : ServerResponse) : MinuetWeb * ServerResponse * option bool :=
  match listen web d d_ req_url res with
  | (web', res', Normal b) => (web', res', Some b)
  | (web', res', Throw _) => (web', res', None)
  end.

(** adding files, path and content, one after the other *)
Definition addFiles (files : list (string * Buffer)) (s : MinuetWeb) : MinuetWeb :=
  fold_left (fun st '(filePath, content) => addBuffer st filePath content) files s.

(** the files of an entry of the listing of [targetPath] that the scan
    hands to [addBuffer], in the order of the scan *)
Fixpoint storedFiles_entry (s : MinuetWeb) (targetPath : string) (e : Dirent)
    : list (string * Buffer) :=
  match e with
  | File name content =>
      if negb (hasMine s name) then []
      else if (byteSize content >? bufferingMaxSize s)%Z then []
      else [(targetPath ++ "/" ++ name, content)]
  | Directory name listing =>
      flat_map (storedFiles_entry s (targetPath ++ "/" ++ name)) listing
  | _ => []
  end.

Definition storedFiles (s : MinuetWeb) (targetPath : string) (listing : list Dirent)
    : list (string * Buffer) :=
  flat_map (storedFiles_entry s targetPath) listing.




(** an entry on which the scan does not throw: no directory in its tree
    that cannot be listed, no entry with a known extension that cannot be
    stat'ed, no file with a known extension and within the size cap that
    cannot be read *)
Fixpoint scannable_entry (s : MinuetWeb) (e : Dirent) : bool :=
  match e with
  | File _ _ => true
  | Directory _ listing => forallb (scannable_entry s) listing
  | LockedDirectory _ => false
  | BrokenEntry name => negb (hasMine s name)
  | UnreadableFile name size =>
      negb (hasMine s name) || (size >? bufferingMaxSize s)%Z
  end.

(** a disk with files at the size cap of three bytes and one byte over it *)
Definition sizeDisk : Disk :=
  TreeDisk.disk
    [Directory "htdocs"
       [File "exact.txt" "abc"; File "over.txt" "abcd";
        Directory "sub" [File "deep.css" "a{}"; File "deep.js" "var x"]]]
    "lib".

(** * Properties *)

Unset Implicit Arguments.

(** ** Dictionaries *)

Section Dictionaries.

Variable V : Type.

Lemma get_set_same (k : string) (v : V) (o : obj V) :
  get k (set k v o) = Some v.
Proof.
  induction o as [|[k' v'] o IH]; simpl.
  - now rewrite String.eqb_refl.
  - destruct (String.eqb k k') eqn:E; simpl; rewrite E; [reflexivity | exact IH].
Qed.

Lemma get_set_other (k k0 : string) (v : V) (o : obj V) :
  k0 <> k -> get k0 (set k v o) = get k0 o.
Proof.
  intros Hne. induction o as [|[k' v'] o IH]; simpl.
  - destruct (String.eqb k0 k) eqn:E; [apply String.eqb_eq in E; contradiction | reflexivity].
  - destruct (String.eqb k k') eqn:E; simpl.
    + apply String.eqb_eq in E; subst k'.
      destruct (String.eqb k0 k) eqn:E0; [apply String.eqb_eq in E0; contradiction | reflexivity].
    + now rewrite IH.
Qed.

Lemma has_set_mono (k k0 : string) (v : V) (o : obj V) :
  has k0 o = true -> has k0 (set k v o) = true.
Proof.
  unfold has. intros H.
  destruct (string_dec k0 k) as [->|Hne].
  - now rewrite get_set_same.
  - now rewrite get_set_other.
Qed.

End Dictionaries.

(** ** What the helpers leave alone *)

Lemma liftRootDir_mounts (s : MinuetWeb) : mounts (liftRootDir s) = mounts s.
Proof.
  unfold liftRootDir, mounts.
  destruct (rootDir s) eqn:E; simpl; rewrite ?E; reflexivity.
Qed.

Lemma liftRootDir_with_buffers (b : obj Buffer) (s : MinuetWeb) :
  liftRootDir (with_buffers b s) = with_buffers b (liftRootDir s).
Proof. unfold liftRootDir. simpl. destruct (rootDir s); reflexivity. Qed.

Lemma liftRootDir_idem (s : MinuetWeb) : liftRootDir (liftRootDir s) = liftRootDir s.
Proof.
  unfold liftRootDir.
  destruct (rootDir s) eqn:E; simpl; rewrite ?E; reflexivity.
Qed.

Lemma sameSettings_refl (s : MinuetWeb) : sameSettings s s.
Proof. unfold sameSettings; repeat split. Qed.

Lemma sameSettings_trans (s1 s2 s3 : MinuetWeb) :
  sameSettings s1 s2 -> sameSettings s2 s3 -> sameSettings s1 s3.
Proof.
  unfold sameSettings; intros H1 H2.
  repeat match goal with H : _ /\ _ |- _ => destruct H end.
  repeat split; congruence.
Qed.

Lemma sameSettings_lift (s : MinuetWeb) : sameSettings s (liftRootDir s).
Proof.
  unfold sameSettings, liftRootDir, mounts.
  destruct (rootDir s) eqn:E; simpl; rewrite ?E; repeat split.
Qed.

Lemma sameSettings_addBuffer (s : MinuetWeb) (filePath : string) (content : Buffer) :
  sameSettings s (addBuffer s filePath content).
Proof.
  unfold addBuffer.
  apply sameSettings_trans with (liftRootDir s); [apply sameSettings_lift|].
  unfold sameSettings; simpl; repeat split.
Qed.

Lemma sameSettings_hasMine (s s' : MinuetWeb) (name : string) :
  sameSettings s s' -> hasMine s' name = hasMine s name.
Proof.
  unfold sameSettings, hasMine. intros (_ & _ & Hm & _). now rewrite Hm.
Qed.

Lemma sameSettings_getMime (s s' : MinuetWeb) (target : string) :
  sameSettings s s' -> getMime s' target = getMime s target.
Proof.
  unfold sameSettings, getMime. intros (_ & _ & Hm & _). now rewrite Hm.
Qed.

(** ** addBuffer *)

Lemma addBuffer_fileName_spec (filePath : string) (c : obj string) :
  forall fileName,
    (addBuffer_fileName filePath c fileName = fileName /\
     forall burl rootDir, In (burl, rootDir) c -> startsWith rootDir filePath = false)
    \/
    (exists burl rootDir,
        In (burl, rootDir) c /\ startsWith rootDir filePath = true /\
        addBuffer_fileName filePath c fileName = Some (urlKey burl rootDir filePath)).
Proof.
  induction c as [|[burl rootDir] c IH]; intros fileName; simpl.
  - left. split; [reflexivity | intros ? ? []].
  - destruct (startsWith rootDir filePath) eqn:E.
    + destruct (IH (Some (urlKey burl rootDir filePath))) as [[Heq Hno] | (b & r & Hin & Hs & Heq)].
      * right. exists burl, rootDir. repeat split; auto.
      * right. exists b, r. repeat split; auto.
    + destruct (IH fileName) as [[Heq Hno] | (b & r & Hin & Hs & Heq)].
      * left. split; [exact Heq|]. intros b r [H|H]; [inversion H; subst; exact E | eauto].
      * right. exists b, r. repeat split; auto.
Qed.

Lemma addBuffer_buffers (s : MinuetWeb) (filePath : string) (content : Buffer) :
  buffers (addBuffer s filePath content)
  = set (propertyKey (addBuffer_fileName filePath (mounts s) None)) content (buffers s).
Proof.
  unfold addBuffer. simpl. rewrite liftRootDir_mounts.
  unfold liftRootDir. destruct (rootDir s); reflexivity.
Qed.

Lemma addBuffer_has_mono (s : MinuetWeb) (filePath : string) (content : Buffer) (k : string) :
  has k (buffers s) = true -> has k (buffers (addBuffer s filePath content)) = true.
Proof. rewrite addBuffer_buffers. apply has_set_mono. Qed.

Lemma addBuffer_stores (s : MinuetWeb) (filePath : string) (content : Buffer) :
  (exists burl rootDir, In (burl, rootDir) (mounts s) /\ startsWith rootDir filePath = true) ->
  exists burl rootDir,
    In (burl, rootDir) (mounts s) /\ startsWith rootDir filePath = true /\
    addBuffer_fileName filePath (mounts s) None = Some (urlKey burl rootDir filePath) /\
    get (urlKey burl rootDir filePath) (buffers (addBuffer s filePath content)) = Some content.
Proof.
  intros (b0 & r0 & Hin0 & Hs0).
  rewrite addBuffer_buffers.
  destruct (addBuffer_fileName_spec filePath (mounts s) None)
    as [[_ Hno] | (b & r & Hin & Hs & Heq)].
  - rewrite (Hno _ _ Hin0) in Hs0. discriminate.
  - exists b, r. repeat split; auto. rewrite Heq. simpl. apply get_set_same.
Qed.

(** C6. With buffering enabled, a file path under some mount directory that
    is added with [addBuffer] is read back by [readFile] on its url key,
    the mount's url prefix (empty for "/") followed by the path without the
    mount directory, double slashes collapsed, with exactly the content that
    was added. *)
Theorem addBuffer_readFile_roundtrip
    (s : MinuetWeb) (d : Disk) (filePath : string) (content : Buffer) :
  buffering s = true ->
  (exists burl rootDir, In (burl, rootDir) (mounts s) /\ startsWith rootDir filePath = true) ->
  exists burl rootDir,
    In (burl, rootDir) (mounts s) /\ startsWith rootDir filePath = true /\
    addBuffer_fileName filePath (mounts s) None = Some (urlKey burl rootDir filePath) /\
    snd (readFile (addBuffer s filePath content) d (urlKey burl rootDir filePath))
    = Normal (Some (mkFileResult content (getMime s (urlKey burl rootDir filePath)))).
Proof.
  intros Hb Hm.
  destruct (addBuffer_stores s filePath content Hm) as (b & r & Hin & Hs & Hkey & Hget).
  exists b, r. repeat split; auto.
  unfold readFile.
  assert (Hb' : buffering (addBuffer s filePath content) = true).
  { destruct (sameSettings_addBuffer s filePath content) as (_ & _ & _ & H & _). congruence. }
  rewrite Hb', Hget. simpl.
  now rewrite (sameSettings_getMime _ _ _ (sameSettings_addBuffer s filePath content)).
Qed.

Lemma addBuffer_readFile_roundtrip_witness :
  exists burl rootDir,
    In (burl, rootDir) (mounts initial) /\ startsWith rootDir "htdocs/css/site.css" = true /\
    addBuffer_fileName "htdocs/css/site.css" (mounts initial) None
    = Some (urlKey burl rootDir "htdocs/css/site.css") /\
    snd (readFile (addBuffer initial "htdocs/css/site.css" "body{}")
           (TreeDisk.disk [] "lib") (urlKey burl rootDir "htdocs/css/site.css"))
    = Normal (Some (mkFileResult "body{}"
                      (getMime initial (urlKey burl rootDir "htdocs/css/site.css")))).
Proof.
  apply (addBuffer_readFile_roundtrip initial (TreeDisk.disk [] "lib")
           "htdocs/css/site.css" "body{}").
  - reflexivity.
  - exists "/", "htdocs". split; [simpl; auto | reflexivity].
Defined.

(** Without a matching mount [fileName] is never assigned, and the
    assignment after the loop goes to the key "undefined". *)
Lemma addBuffer_unmatched (s : MinuetWeb) (filePath : string) (content : Buffer) :
  (forall burl rootDir, In (burl, rootDir) (mounts s) -> startsWith rootDir filePath = false) ->
  buffers (addBuffer s filePath content) = set "undefined" content (buffers s).
Proof.
  intros Hno. rewrite addBuffer_buffers.
  destruct (addBuffer_fileName_spec filePath (mounts s) None)
    as [[-> _] | (b & r & Hin & Hs & _)]; [reflexivity|].
  rewrite (Hno _ _ Hin) in Hs. discriminate.
Qed.

(** C8. A file path under none of the mount directories is still stored:
    [fileName] stays undefined and the content lands under the property
    key "undefined", so the store does change. *)
Theorem addBuffer_unmatched_path_is_stored :
  buffers initial = [] /\
  addBuffer_fileName "other/x.txt" (mounts initial) None = None /\
  buffers (addBuffer initial "other/x.txt" "hi") = [("undefined", "hi")].
Proof. repeat split. Qed.

(** ** search *)

(** Induction over a directory tree: a directory is covered once every
    entry of its listing is. *)
Section DirentInduction.

Variable P : Dirent -> Prop.
Hypothesis P_File : forall name content, P (File name content).
Hypothesis P_Directory : forall name listing, Forall P listing -> P (Directory name listing).
Hypothesis P_LockedDirectory : forall name, P (LockedDirectory name).
Hypothesis P_BrokenEntry : forall name, P (BrokenEntry name).
Hypothesis P_UnreadableFile : forall name size, P (UnreadableFile name size).

Fixpoint Dirent_tree_ind (e : Dirent) : P e :=
  match e with
  | File name content => P_File name content
  | Directory name listing =>
      P_Directory name listing
        ((fix entries (l : list Dirent) : Forall P l :=
            match l with
            | [] => Forall_nil P
            | e' :: l' => Forall_cons e' (Dirent_tree_ind e') (entries l')
            end) listing)
  | LockedDirectory name => P_LockedDirectory name
  | BrokenEntry name => P_BrokenEntry name
  | UnreadableFile name size => P_UnreadableFile name size
  end.

End DirentInduction.

Lemma forEach_app (A : Type) (body : MinuetWeb -> A -> MinuetWeb * completion unit)
    (l1 l2 : list A) (s : MinuetWeb) :
  forEach body (l1 ++ l2) s
  = match forEach body l1 s with
    | (s1, Normal _) => forEach body l2 s1
    | (s1, Throw e) => (s1, Throw e)
    end.
Proof.
  revert s. induction l1 as [|a l1 IH]; intros s; simpl; [reflexivity|].
  destruct (body s a) as [s1 [u|e]]; [apply IH | reflexivity].
Qed.

(** Whatever [addBuffer] keeps, the whole scan keeps, also when it
    throws. *)
Section SearchInvariant.

Variable Q : MinuetWeb -> Prop.
Hypothesis Q_addBuffer : forall s filePath content, Q s -> Q (addBuffer s filePath content).

Lemma forEach_invariant (A : Type) (body : MinuetWeb -> A -> MinuetWeb * completion unit)
    (l : list A) :
  Forall (fun a => forall s, Q s -> Q (fst (body s a))) l ->
  forall s, Q s -> Q (fst (forEach body l s)).
Proof.
  induction 1 as [|a l Ha _ IH]; intros s Hs; simpl; [exact Hs|].
  specialize (Ha s Hs). destruct (body s a) as [s1 [u|e]]; simpl in Ha; [now apply IH | exact Ha].
Qed.

Lemma search_entry_invariant (e : Dirent) :
  forall targetPath url s, Q s -> Q (fst (search_entry targetPath url s e)).
Proof.
  induction e as [name content | name listing IH | name | name | name size]
    using Dirent_tree_ind; intros targetPath url s Hs; simpl.
  - destruct (negb (hasMine s name)); [exact Hs|].
    destruct (byteSize content >? bufferingMaxSize s)%Z; [exact Hs|].
    now apply Q_addBuffer.
  - apply forEach_invariant; [|exact Hs].
    apply Forall_forall. intros e He s0 Hs0.
    rewrite Forall_forall in IH. now apply IH.
  - exact Hs.
  - destruct (negb (hasMine s name)); exact Hs.
  - destruct (negb (hasMine s name)); [exact Hs|].
    destruct (size >? bufferingMaxSize s)%Z; exact Hs.
Qed.

Lemma search_list_invariant (listing : list Dirent) :
  forall targetPath url s, Q s -> Q (fst (search_list targetPath url listing s)).
Proof.
  intros targetPath url s Hs. unfold search_list.
  apply forEach_invariant; [|exact Hs].
  apply Forall_forall. intros e _ s0 Hs0. now apply search_entry_invariant.
Qed.

End SearchInvariant.

Lemma search_list_sameSettings (targetPath url : string) (listing : list Dirent)
    (s : MinuetWeb) :
  sameSettings s (fst (search_list targetPath url listing s)).
Proof.
  apply (search_list_invariant (sameSettings s)).
  - intros s' filePath content H.
    apply sameSettings_trans with s'; [exact H | apply sameSettings_addBuffer].
  - apply sameSettings_refl.
Qed.

Lemma search_list_has_mono (targetPath url : string) (listing : list Dirent)
    (s : MinuetWeb) (k : string) :
  has k (buffers s) = true ->
  has k (buffers (fst (search_list targetPath url listing s))) = true.
Proof.
  apply (search_list_invariant (fun s' => has k (buffers s') = true)).
  intros s' filePath content. apply addBuffer_has_mono.
Qed.

Lemma search_list_app (targetPath url : string) (l1 l2 : list Dirent) (s : MinuetWeb) :
  search_list targetPath url (l1 ++ l2) s
  = match search_list targetPath url l1 s with
    | (s1, Normal _) => search_list targetPath url l2 s1
    | (s1, Throw e) => (s1, Throw e)
    end.
Proof. unfold search_list. apply forEach_app. Qed.

Lemma startsWith_app (p s t : string) :
  startsWith p s = true -> startsWith p (s ++ t) = true.
Proof.
  revert s. induction p as [|a p IH]; intros s H; [reflexivity|].
  destruct s as [|b s]; simpl in *; [discriminate|].
  apply andb_true_iff in H as [Hab Hps].
  rewrite Hab. simpl. now apply IH.
Qed.

Lemma append_assoc (a b c : string) : (a ++ b) ++ c = a ++ b ++ c.
Proof. induction a as [|x a IH]; simpl; [reflexivity | now rewrite IH]. Qed.

(** *** What a scan that completes has stored *)

Lemma addFiles_app (l1 l2 : list (string * Buffer)) (s : MinuetWeb) :
  addFiles (l1 ++ l2) s = addFiles l2 (addFiles l1 s).
Proof. unfold addFiles. apply fold_left_app. Qed.

Lemma addFiles_sameSettings (files : list (string * Buffer)) :
  forall s, sameSettings s (addFiles files s).
Proof.
  induction files as [|[filePath content] files IH]; intros s; [apply sameSettings_refl|].
  apply sameSettings_trans with (addBuffer s filePath content);
    [apply sameSettings_addBuffer | apply IH].
Qed.

Lemma forEach_stored (A : Type) (body : MinuetWeb -> A -> MinuetWeb * completion unit)
    (files : A -> list (string * Buffer)) (s0 : MinuetWeb) (l : list A) :
  Forall (fun a => forall s s', sameSettings s0 s -> body s a = (s', Normal tt) ->
                                s' = addFiles (files a) s) l ->
  forall s s', sameSettings s0 s -> forEach body l s = (s', Normal tt) ->
               s' = addFiles (flat_map files l) s.
Proof.
  induction 1 as [|a l Ha _ IH]; intros s s' Hs H; simpl in *.
  - now inversion H.
  - destruct (body s a) as [s1 [[]|e]] eqn:E; [|discriminate].
    rewrite (Ha s s1 Hs E) in *. rewrite addFiles_app.
    apply IH; [|exact H].
    apply sameSettings_trans with s; [exact Hs | apply addFiles_sameSettings].
Qed.

Lemma search_entry_stored (s0 : MinuetWeb) (e : Dirent) :
  forall targetPath url s s',
    sameSettings s0 s -> search_entry targetPath url s e = (s', Normal tt) ->
    s' = addFiles (storedFiles_entry s0 targetPath e) s.
Proof.
  induction e as [name content | name listing IH | name | name | name size]
    using Dirent_tree_ind; intros targetPath url s s' Hs H; simpl in *.
  - rewrite (sameSettings_hasMine _ _ name Hs) in H.
    destruct Hs as (_ & _ & _ & _ & Hmax & _). rewrite Hmax in H.
    destruct (negb (hasMine s0 name)); [now inversion H|].
    destruct (byteSize content >? bufferingMaxSize s0)%Z; now inversion H.
  - apply (forEach_stored _ _ (storedFiles_entry s0 (targetPath ++ "/" ++ name)) s0 listing)
      with (s := s) in H; [exact H | | exact Hs].
    apply Forall_forall. intros e He s1 s2 Hs1 H1.
    rewrite Forall_forall in IH. now apply (IH e He _ url).
  - discriminate.
  - destruct (negb (hasMine s name)); [now inversion H | discriminate].
  - destruct (negb (hasMine s name)); [now inversion H|].
    destruct (size >? bufferingMaxSize s)%Z; [now inversion H | discriminate].
Qed.

Lemma search_list_stored (s0 : MinuetWeb) (targetPath url : string) (listing : list Dirent) :
  forall s s',
    sameSettings s0 s -> search_list targetPath url listing s = (s', Normal tt) ->
    s' = addFiles (storedFiles s0 targetPath listing) s.
Proof.
  intros s s' Hs H. unfold search_list in H.
  apply (forEach_stored _ _ (storedFiles_entry s0 targetPath) s0 listing) with (s := s) in H;
    [exact H | | exact Hs].
  apply Forall_forall. intros e _ s1 s2 Hs1 H1. now apply (search_entry_stored s0 e _ url).
Qed.





(** *** The key of a file across [addFiles] *)







(** *** The rebuild *)




(** the same boundary through the construction of a server *)
Example updateBuffer_size_boundary :
  let options := mkOption None None None None None (Some 3%Z) None None None None None in
  buffers (fst (constructor sizeDisk (Some options)))
  = [("/exact.txt", "abc"); ("/sub/deep.css", "a{}")].
Proof. reflexivity. Qed.


(** ** getUrl and readFile only lift [rootDir] *)

Lemma lifted_refl (s : MinuetWeb) : lifted s s.
Proof. now left. Qed.

Lemma lifted_lift (s s' : MinuetWeb) : lifted s s' -> lifted s (liftRootDir s').
Proof.
  intros [-> | ->]; right; [reflexivity | apply liftRootDir_idem].
Qed.

Lemma lifted_trans (s1 s2 s3 : MinuetWeb) : lifted s1 s2 -> lifted s2 s3 -> lifted s1 s3.
Proof.
  intros H12 [-> | ->]; [exact H12 | now apply lifted_lift].
Qed.

Lemma lifted_sameSettings (s s' : MinuetWeb) : lifted s s' -> sameSettings s s'.
Proof. intros [-> | ->]; [apply sameSettings_refl | apply sameSettings_lift]. Qed.

Lemma lifted_buffers (s s' : MinuetWeb) : lifted s s' -> buffers s' = buffers s.
Proof. intros [-> | ->]; [reflexivity|]. unfold liftRootDir. now destruct (rootDir s). Qed.

Lemma lifted_headers (s s' : MinuetWeb) : lifted s s' -> headers s' = headers s.
Proof. intros [-> | ->]; [reflexivity|]. unfold liftRootDir. now destruct (rootDir s). Qed.

Lemma getUrl_loop_lifted (d : Disk) (urlList : list string) :
  forall s decisionUrl, lifted s (fst (getUrl_loop s d urlList decisionUrl)).
Proof.
  induction urlList as [|url_ urlList IH]; intros s decisionUrl; simpl.
  - apply lifted_refl.
  - destruct (buffering s && has url_ (buffers s)); [apply lifted_refl|].
    destruct (buffering s && negb (directReading s)); [apply IH|].
    destruct (getUrl_exists d (mounts (liftRootDir s)) url_); simpl.
    + now right.
    + apply lifted_trans with (liftRootDir s); [now right | apply IH].
Qed.

Lemma getUrl_lifted (s : MinuetWeb) (d : Disk) (baseUrl : string) :
  lifted s (fst (getUrl s d baseUrl)).
Proof. unfold getUrl. apply getUrl_loop_lifted. Qed.

Lemma readFile_lifted (s : MinuetWeb) (d : Disk) (targetPath : string) :
  lifted s (fst (readFile s d targetPath)).
Proof.
  unfold readFile.
  destruct (if buffering s then get targetPath (buffers s) else None);
    [apply lifted_refl|].
  destruct (readFile_mounts _ d targetPath _ None); [|now right].
  destruct (readFileSync d _); now right.
Qed.

Lemma error_lifted (s s' : MinuetWeb) (d : Disk) (res : ServerResponse) :
  lifted s s' -> error s' d res = error s d res.
Proof.
  intros H. unfold error.
  destruct (lifted_sameSettings _ _ H) as (_ & _ & _ & Hb & _ & _ & Hn & _).
  now rewrite Hn, Hb, (lifted_buffers _ _ H).
Qed.

Lemma isDirectory_lifted (s s' : MinuetWeb) (d_ : Date) (req_url : string)
    (res : ServerResponse) :
  lifted s s' -> isDirectory s' d_ req_url res = isDirectory s d_ req_url res.
Proof.
  intros H. unfold isDirectory, getDirectories.
  destruct (lifted_sameSettings _ _ H) as (_ & _ & _ & Hb & _).
  now rewrite Hb, (lifted_buffers _ _ H).
Qed.

(** ** The resolved url *)

Lemma collapse_nonempty (p : string) : p <> EmptyString -> collapse p <> EmptyString.
Proof.
  destruct p as [|c p]; [congruence|]. intros _.
  unfold collapse, splitJoin. cbn [splitJoinFrom].
  destruct (startsWith "//" (String c p)); discriminate.
Qed.

Lemma getUrl_loop_result (d : Disk) (urlList : list string) :
  forall s decisionUrl,
    snd (getUrl_loop s d urlList decisionUrl) = decisionUrl
    \/ In (snd (getUrl_loop s d urlList decisionUrl)) urlList.
Proof.
  induction urlList as [|url_ urlList IH]; intros s decisionUrl; simpl.
  - now left.
  - destruct (buffering s && has url_ (buffers s)); [right; now left|].
    destruct (buffering s && negb (directReading s)).
    + destruct (IH s decisionUrl); [now left | right; now right].
    + destruct (getUrl_exists d (mounts (liftRootDir s)) url_); [right; now left|].
      destruct (IH (liftRootDir s) decisionUrl); [now left | right; now right].
Qed.

(** The resolver never yields the empty string for a request path that is
    not empty, so for such a path [listen] never reaches [isDirectory]. *)
Lemma getUrl_nonempty (s : MinuetWeb) (d : Disk) (baseUrl : string) :
  baseUrl <> EmptyString -> snd (getUrl s d baseUrl) <> EmptyString.
Proof.
  intros Hne. unfold getUrl.
  destruct (getUrl_loop_result d
              (map (fun index =>
                      collapse
                        ((if negb (String.eqb (splitFirst "?" baseUrl) "/")
                             && lastCharIs "/" (splitFirst "?" baseUrl)
                          then dropLast (splitFirst "?" baseUrl)
                          else splitFirst "?" baseUrl) ++ "/" ++ index))
                 (directoryIndexs s)) s baseUrl) as [-> | Hin]; [exact Hne|].
  apply in_map_iff in Hin as (index & <- & _).
  apply collapse_nonempty.
  destruct (if negb (String.eqb (splitFirst "?" baseUrl) "/")
               && lastCharIs "/" (splitFirst "?" baseUrl)
            then dropLast (splitFirst "?" baseUrl)
            else splitFirst "?" baseUrl); discriminate.
Qed.

(** ** What a call of [listen] can write *)

Lemma setHeader_loop_ended (c : obj string) :
  forall res, ended (fst (setHeader_loop c res)) = ended res.
Proof.
  induction c as [|[name value] c IH]; intros res; simpl; [reflexivity|].
  unfold res_setHeader.
  destruct (headersSent res); [reflexivity|].
  destruct (negb (validHeaderName name)); [reflexivity|].
  destruct (negb (validHeaderValue value)); [reflexivity|].
  now rewrite IH.
Qed.

Lemma written_ended (res res' : ServerResponse) : written res res' -> ended res' = true.
Proof.
  intros H. destruct H as [c content resH Hc | | content | | s d_ req_url Hb Hh];
    try reflexivity.
  unfold isDirectory, has in *. rewrite Hb.
  destruct (get MinuetWebBufferName.listNavigator (buffers s)); [reflexivity | discriminate].
Qed.

Lemma error_cases (s : MinuetWeb) (d : Disk) (res : ServerResponse) :
  (error s d res = (res, false) /\ notFound s = NotFoundBool false)
  \/ (exists res', error s d res = (res', true) /\ written res res').
Proof.
  unfold error. destruct (notFound s) as [[|]|page].
  - right. eexists. split; [reflexivity | constructor].
  - left. now split.
  - right.
    destruct (if buffering s then get MinuetWebBufferName.notFound (buffers s)
              else readFileSync d page);
      eexists; (split; [reflexivity | constructor]).
Qed.

(** the two ways out of the statements after the [try] block *)
Lemma respondOk_cases (s : MinuetWeb) (req_url : string) (res : ServerResponse)
    (content : Buffer) (mime : string) :
  let s1 := with_headers (set "content-type" mime (headers s)) s in
  respondOk s req_url res content mime
  = match setHeader s1 (res_statusCode 200 res) with
    | (resH, Normal _) =>
        (log s1 (logAccess s1) req_url, res_end (res_write content resH), Normal tt)
    | (resH, Throw e) => (s1, resH, Throw e)
    end.
Proof.
  unfold respondOk.
  destruct (setHeader (with_headers (set "content-type" mime (headers s)) s)
              (res_statusCode 200 res)) as [resH [[]|e]]; reflexivity.
Qed.

(** the branches of [listen], by what is returned and what is written *)
Lemma listen_cases (s : MinuetWeb) (d : Disk) (d_ : Date) (req_url : string)
    (res : ServerResponse) :
  let '(s', res', r) := listen s d d_ req_url res in
  (r = Normal false /\ res' = res /\ notFound s = NotFoundBool false)
  \/ (r = Normal true /\ written res res')
  \/ (r = Normal true /\ res' = res /\ buffering s = false /\ listNavigator s = true /\
      snd (getUrl s d (splitFirst "?" req_url)) = EmptyString)
  \/ (exists e, r = Throw e /\ res' = res /\ buffering s = true /\ listNavigator s = true /\
      get MinuetWebBufferName.listNavigator (buffers s) = None /\
      snd (getUrl s d (splitFirst "?" req_url)) = EmptyString)
  \/ (exists e, r = Throw e /\ ended res' = ended res /\
      snd (getUrl s d (splitFirst "?" req_url)) <> EmptyString).
Proof.
  unfold listen.
  pose proof (getUrl_lifted s d (splitFirst "?" req_url)) as Hl1.
  destruct (getUrl s d (splitFirst "?" req_url)) as [s1 u] eqn:Eg. simpl in Hl1.
  pose proof (lifted_sameSettings _ _ Hl1) as Hsame1.
  assert (Hnf : forall s2, lifted s1 s2 ->
            let '(res', b) := error s2 d res in
            (Normal b = Normal false /\ res' = res /\ notFound s = NotFoundBool false)
            \/ (Normal b = Normal true /\ written res res')).
  { intros s2 Hl2. rewrite (error_lifted _ _ d res (lifted_trans _ _ _ Hl1 Hl2)).
    destruct (error_cases s d res) as [[-> Hn] | (res' & -> & Hw)]; [left | right]; auto. }
  destruct (String.eqb u EmptyString) eqn:Eu.
  - apply String.eqb_eq in Eu. subst u.
    destruct (listNavigator s1) eqn:Eln.
    + rewrite (isDirectory_lifted _ _ d_ req_url res Hl1).
      assert (Hln : listNavigator s = true)
        by (destruct Hsame1 as (_ & _ & _ & _ & _ & _ & _ & _ & H & _); congruence).
      unfold isDirectory. destruct (buffering s) eqn:Eb.
      * destruct (get MinuetWebBufferName.listNavigator (buffers s)) as [template|] eqn:Et.
        -- right; left. split; [reflexivity|].
           pose proof (written_listing res s d_ req_url Eb) as W.
           unfold has, isDirectory in W. rewrite Et, Eb in W. now apply W.
        -- right; right; right; left. exists "TypeError". repeat split; auto.
      * right; right; left. repeat split; auto.
    + specialize (Hnf s1 (lifted_refl s1)).
      destruct (error s1 d res) as [res' b].
      destruct Hnf as [H | H]; [left | right; left]; exact H.
  - apply String.eqb_neq in Eu.
    pose proof (readFile_lifted s1 d u) as Hl2.
    destruct (readFile s1 d u) as [s2 r]. simpl in Hl2.
    destruct (loaded r) as [[content mime]|].
    + rewrite respondOk_cases. unfold setHeader.
      pose proof (setHeader_loop_ended
                    (headers (with_headers (set "content-type" mime (headers s2)) s2))
                    (res_statusCode 200 res)) as He.
      destruct (setHeader_loop
                  (headers (with_headers (set "content-type" mime (headers s2)) s2))
                  (res_statusCode 200 res)) as [resH [[]|e]] eqn:Eh.
      * right; left. split; [reflexivity|]. now apply written_content with (c := headers
          (with_headers (set "content-type" mime (headers s2)) s2)).
      * right; right; right; right. exists e. repeat split; auto.
    + specialize (Hnf s2 Hl2).
      destruct (error s2 d res) as [res' b].
      destruct Hnf as [H | H]; [left | right; left]; exact H.
Qed.

(** C2.  A request reaches [listen] with a path that is not empty, and
    with a response that is not yet ended.  Whenever [listen] then
    returns, it returns true exactly when a response was written (a 200
    content response, an empty 404, a 404 page, the "ERROR" body or a
    directory listing), and it returns false only when [notFound] is the
    boolean false, the response being untouched.  When [listen] throws
    instead of returning, no response was written. *)
Theorem listen_result (s : MinuetWeb) (d : Disk) (d_ : Date) (req_url : string)
    (res : ServerResponse) :
  ended res = false ->
  splitFirst "?" req_url <> EmptyString ->
  let '(s', res', r) := listen s d d_ req_url res in
  (r = Normal true <-> written res res') /\
  (r = Normal false -> notFound s = NotFoundBool false /\ res' = res) /\
  (forall e, r = Throw e -> ended res' = false).
Proof.
  intros Hfresh Hpath.
  pose proof (listen_cases s d d_ req_url res) as H.
  pose proof (getUrl_nonempty s d (splitFirst "?" req_url) Hpath) as Hurl.
  destruct (listen s d d_ req_url res) as [[s' res'] r].
  destruct H as [(-> & -> & Hn) | [(-> & Hw) | [(-> & -> & _ & _ & Hgap)
                 | [(e & -> & -> & _ & _ & _ & Hgap) | (e & -> & He & _)]]]];
    try contradiction.
  - split; [split; [discriminate|] | split; [now split | discriminate]].
    intros Hw. apply written_ended in Hw. congruence.
  - split; [split; auto | split; discriminate].
  - split; [split; [discriminate|] | split; [discriminate|]].
    + intros Hw. apply written_ended in Hw. congruence.
    + intros _ _. congruence.
Qed.

Lemma listen_result_witness :
  ended newResponse = false /\
  splitFirst "?" "/missing.png" <> EmptyString /\
  (let '(s', res', r) := listen scenarioB scenarioB_disk someDate "/missing.png" newResponse in
   (r = Normal true <-> written newResponse res') /\
   (r = Normal false -> notFound scenarioB = NotFoundBool false /\ res' = newResponse) /\
   (forall e, r = Throw e -> ended res' = false)).
Proof.
  split; [reflexivity|]. split; [discriminate|].
  apply (listen_result scenarioB scenarioB_disk someDate "/missing.png" newResponse).
  - reflexivity.
  - discriminate.
Defined.

(** Outside that precondition: without buffering and with [listNavigator]
    on, an empty request path makes [listen] return true with the response
    left untouched, the branch of [isDirectory] without buffering being
    empty. *)
Remark listen_empty_path_unbuffered :
  let '(s', res', r) :=
    listen unbufferedNavigator scenarioB_disk someDate "?page=2" newResponse in
  r = Normal true /\ res' = newResponse /\ ended res' = false.
Proof. repeat split. Qed.

(** ** The configuration across a call of [listen] *)

Lemma log_sameSettings (s : MinuetWeb) (logMode : option string) (req_url : string) :
  sameSettings s (log s logMode req_url) /\
  buffers (log s logMode req_url) = buffers s /\
  headers (log s logMode req_url) = headers s.
Proof.
  unfold log. destruct logMode as [mode|]; [|repeat split].
  destruct (String.eqb mode EmptyString); [repeat split|].
  destruct (logger s); repeat split.
Qed.

(** C9, amended.  [listen] leaves every setting of the configuration and
    the buffer store as they were, up to lifting a bare [rootDir] to the
    one-mount map under "/", with one exception.  Whenever it has loaded
    content with a mime type for the request, it stores that mime type
    under "content-type" in the configured headers before it copies them
    to the response: afterwards the headers are the previous ones with
    that key set, whether the 200 response was then written and true
    returned, or the copy threw on a header the response refuses.  When
    nothing was loaded the headers are unchanged, and the status of the
    response is as before or 404. *)
Theorem listen_configuration (s : MinuetWeb) (d : Disk) (d_ : Date) (req_url : string)
    (res : ServerResponse) :
  let '(s', res', r) := listen s d d_ req_url res in
  sameSettings s s' /\ buffers s' = buffers s /\
  match served s d req_url with
  | Some (content, mime) =>
      headers s' = set "content-type" mime (headers s) /\
      match r with
      | Normal b =>
          b = true /\
          exists resH,
            setHeader s' (res_statusCode 200 res) = (resH, Normal tt) /\
            res' = res_end (res_write content resH)
      | Throw e => setHeader s' (res_statusCode 200 res) = (res', Throw e)
      end
  | None =>
      headers s' = headers s /\
      (statusCode res' = statusCode res \/ statusCode res' = 404%Z)
  end.
Proof.
  unfold listen, served.
  pose proof (getUrl_lifted s d (splitFirst "?" req_url)) as Hl1.
  destruct (getUrl s d (splitFirst "?" req_url)) as [s1 u]. simpl in Hl1.
  assert (Hkeep : forall s2, lifted s1 s2 ->
            sameSettings s s2 /\ buffers s2 = buffers s /\ headers s2 = headers s).
  { intros s2 Hl2. pose proof (lifted_trans _ _ _ Hl1 Hl2) as Hl.
    split; [now apply lifted_sameSettings|].
    split; [now apply lifted_buffers | now apply lifted_headers]. }
  assert (Herr : forall s2, statusCode (fst (error s2 d res)) = statusCode res
                            \/ statusCode (fst (error s2 d res)) = 404%Z).
  { intros s2. unfold error. destruct (notFound s2) as [[|]|page]; simpl; auto.
    destruct (if buffering s2 then get MinuetWebBufferName.notFound (buffers s2)
              else readFileSync d page); simpl; auto. }
  destruct (String.eqb u EmptyString).
  - destruct (Hkeep s1 (lifted_refl s1)) as (H1 & H2 & H3).
    destruct (listNavigator s1).
    + unfold isDirectory. destruct (buffering s1).
      * destruct (get MinuetWebBufferName.listNavigator (buffers s1));
          lazy beta iota; (split; [|split; [|split]]; auto).
      * lazy beta iota. split; [|split; [|split]]; auto.
    + specialize (Herr s1). destruct (error s1 d res); lazy beta iota.
      split; [|split; [|split]]; auto.
  - pose proof (readFile_lifted s1 d u) as Hl2.
    destruct (readFile s1 d u) as [s2 r]. simpl in Hl2. simpl snd.
    destruct (Hkeep s2 Hl2) as (H1 & H2 & H3).
    destruct (loaded r) as [[content mime]|].
    + rewrite respondOk_cases.
      set (s3 := with_headers (set "content-type" mime (headers s2)) s2).
      destruct (log_sameSettings s3 (logAccess s3) req_url) as (Ks & Kb & Kh).
      assert (Hs3 : sameSettings s s3)
        by (apply sameSettings_trans with s2; [exact H1 | unfold sameSettings; repeat split]).
      destruct (setHeader s3 (res_statusCode 200 res)) as [resH [[]|e]] eqn:Eh;
        lazy beta iota.
      * split; [now apply sameSettings_trans with s3|].
        split; [now rewrite Kb|].
        split; [rewrite Kh; simpl; now rewrite H3|].
        split; [reflexivity|]. exists resH. split; [|reflexivity].
        unfold setHeader in *. now rewrite Kh.
      * split; [exact Hs3|]. split; [exact H2|].
        split; [simpl; now rewrite H3 | exact Eh].
    + specialize (Herr s2). destruct (error s2 d res); lazy beta iota.
      split; [|split; [|split]]; auto.
Qed.

(** C9, counterexample.  Serving "/a.txt" writes a 200 response and leaves
    "content-type" behind in the configured headers, which were empty
    before the call. *)
Lemma listen_changes_headers :
  let '(s', res', r) := listen oneTextFile scenarioB_disk someDate "/a.txt" newResponse in
  r = Normal true /\ statusCode res' = 200%Z /\ body res' = "hi" /\
  headers oneTextFile = [] /\
  headers s' = [("content-type", "text/plain")] /\
  headers s' <> headers oneTextFile.
Proof. repeat split. discriminate. Qed.

(** ** The not-found page that cannot be read *)

(** C10. With [notFound] set to a page path whose content cannot be read,
    the sentinel entry missing from the store under buffering or the disk
    read throwing without it, [error] writes the body "ERROR" and ends the
    response without touching the status code, so a fresh response keeps
    Node's default 200 instead of 404; and whenever [listen] takes its
    not-found path it returns true with that response. *)
Theorem error_page_unreadable (s : MinuetWeb) (d : Disk) (res : ServerResponse)
    (page : string) :
  notFound s = NotFoundPage page ->
  (if buffering s then get MinuetWebBufferName.notFound (buffers s)
   else readFileSync d page) = None ->
  error s d res = (res_end (res_write "ERROR" res), true) /\
  statusCode (fst (error s d res)) = statusCode res /\
  statusCode (fst (error s d newResponse)) = 200%Z /\
  forall (d_ : Date) (req_url : string),
    (let '(s1, u) := getUrl s d (splitFirst "?" req_url) in
     (u = EmptyString /\ listNavigator s = false)
     \/ (u <> EmptyString /\ loaded (snd (readFile s1 d u)) = None)) ->
    snd (listen s d d_ req_url res) = Normal true /\
    snd (fst (listen s d d_ req_url res)) = res_end (res_write "ERROR" res).
Proof.
  intros Hpage Hfail.
  assert (Herr : forall r, error s d r = (res_end (res_write "ERROR" r), true)).
  { intros r. unfold error. now rewrite Hpage, Hfail. }
  split; [apply Herr|].
  split; [now rewrite Herr|].
  split; [now rewrite Herr|].
  intros d_ req_url. unfold listen.
  pose proof (getUrl_lifted s d (splitFirst "?" req_url)) as Hl1.
  destruct (getUrl s d (splitFirst "?" req_url)) as [s1 u]. simpl in Hl1.
  intros [[-> Hln] | [Hu Hload]].
  - simpl.
    assert (Hln1 : listNavigator s1 = false).
    { destruct (lifted_sameSettings _ _ Hl1) as (_ & _ & _ & _ & _ & _ & _ & _ & H & _).
      congruence. }
    rewrite Hln1, (error_lifted _ _ d res Hl1), Herr. now split.
  - apply String.eqb_neq in Hu. rewrite Hu.
    pose proof (readFile_lifted s1 d u) as Hl2.
    destruct (readFile s1 d u) as [s2 r]. simpl in Hl2, Hload. rewrite Hload.
    rewrite (error_lifted _ _ d res (lifted_trans _ _ _ Hl1 Hl2)), Herr. now split.
Qed.

Lemma error_page_unreadable_witness :
  error missingPage scenarioB_disk newResponse
  = (res_end (res_write "ERROR" newResponse), true) /\
  statusCode (fst (error missingPage scenarioB_disk newResponse)) = 200%Z /\
  snd (listen missingPage scenarioB_disk someDate "/missing.png" newResponse) = Normal true /\
  snd (fst (listen missingPage scenarioB_disk someDate "/missing.png" newResponse))
  = res_end (res_write "ERROR" newResponse).
Proof.
  destruct (error_page_unreadable missingPage scenarioB_disk newResponse "404.html")
    as (Herror & _ & Hstatus & Hlisten).
  - reflexivity.
  - reflexivity.
  - split; [exact Herror|]. split; [exact Hstatus|].
    apply (Hlisten someDate "/missing.png").
    right. split; [discriminate | reflexivity].
Defined.

(** the not-found path is taken by a request for a missing file *)
Example missingPage_request :
  listen missingPage scenarioB_disk someDate "/missing.png" newResponse
  = (missingPage, mkResponse 200 [] "ERROR" true, Normal true).
Proof. reflexivity. Qed.

(** ** Scenario D: two mounts with a file of the same name *)

(** C5. With the mounts "/a" on "dirA" and "/b" on "dirB", each holding a
    file "x.txt", a request for "/a/x.txt" is answered with status 200 and
    exactly the bytes of the file in "dirA", whatever the file in "dirB"
    holds, both for a server built with buffering and for one built
    without it. *)
Theorem scenarioD_serves_dirA (contentA contentB : Buffer) (buffering : bool) (d_ : Date) :
  exists s s',
    constructor (scenarioD_disk contentA contentB) (Some (scenarioD_options buffering))
    = (s, Normal tt) /\
    listen s (scenarioD_disk contentA contentB) d_ "/a/x.txt" newResponse
    = (s', mkResponse 200 [("content-type", "text/plain")] contentA true, Normal true).
Proof.
  destruct buffering.
  - cbv -[byteSize Z.gtb].
    destruct (byteSize contentA >? 300000)%Z; destruct (byteSize contentB >? 300000)%Z;
      cbv -[byteSize Z.gtb]; eexists; eexists; (split; reflexivity).
  - cbv -[byteSize Z.gtb]. eexists; eexists; (split; reflexivity).
Qed.

(** ** Scenario E: the directory listing *)

(** C1. In scenario E the listing is not produced.  The server built with
    [listNavigator] on holds exactly "/docs/a.txt", "/docs/b.txt" and the
    template; for the request "/docs" the resolver falls back to "/docs"
    itself, which is not empty, so [listen] goes on to [readFile], finds no
    file, and ends in [error]: it returns false and writes nothing.  The
    page [isDirectory] would have written has the two rows. *)
Theorem scenarioE_no_listing (template : Buffer) (d_ : Date) :
  exists s,
    constructor (scenarioE_disk template) (Some scenarioE_options) = (s, Normal tt) /\
    buffers s = [ ("/docs/a.txt", "A"); ("/docs/b.txt", "B");
                  (MinuetWebBufferName.listNavigator, template) ] /\
    getDirectories s "/docs" = ["/docs/a.txt"; "/docs/b.txt"] /\
    getUrl s (scenarioE_disk template) "/docs" = (s, "/docs") /\
    listen s (scenarioE_disk template) d_ "/docs" newResponse
    = (s, newResponse, Normal false).
Proof. eexists. repeat split. Qed.

(** ** Two mounts and a directory index *)

(** C3. An index match in an earlier mount does not settle the decision.
    For "/a/x" the first mount accepts "dirA/x/index.html", which only
    leaves the loop over the index names; the second mount then accepts
    "dirB/x/index.html" and overwrites [decisionPath], so the content of
    the later mount is returned. *)
Theorem readFile_later_mount_overrides :
  isRegularFile twoIndexes_disk "dirA/x/index.html" = true /\
  readFile_indexes twoMounts twoIndexes_disk "dirA" "/a" "/a/x" (directoryIndexs twoMounts)
  = Some "dirA/x/index.html" /\
  readFile_mounts twoMounts twoIndexes_disk "/a/x" (mounts twoMounts) None
  = Some "dirB/x/index.html" /\
  snd (readFile twoMounts twoIndexes_disk "/a/x")
  = Normal (Some (mkFileResult "B-index" (Some "text/html"))).
Proof. repeat split. Qed.

(** ** One mount under a url prefix *)

(** C4. The disk-existence step of the resolver does not strip the mount's
    url prefix.  For "/a/x" it tests "dirA/a/x/index.html", the candidate
    appended to the mount directory as it is, where [readFile] would build
    "dirA/x/index.html"; that file exists, the tested one does not, and
    the resolver returns the request path "/a/x" instead of the candidate
    "/a/x/index.html". *)
Theorem getUrl_keeps_mount_prefix :
  existsSync mountA_disk "dirA/x/index.html" = true /\
  targetFullPathIndex mountA "dirA" "/a" "/a/x" "index.html" = "dirA/x/index.html" /\
  collapse ("dirA" ++ "/" ++ "/a/x/index.html") = "dirA/a/x/index.html" /\
  getUrl_exists mountA_disk (mounts mountA) "/a/x/index.html" = false /\
  getUrl mountA mountA_disk "/a/x" = (mountA, "/a/x").
Proof. repeat split. Qed.


(** * Further properties of the methods *)

(** ** addBuffer: which mount names the key, and what else it touches *)

Lemma set_set (V : Type) (k : string) (v1 v2 : V) (o : obj V) :
  set k v2 (set k v1 o) = set k v2 o.
Proof.
  induction o as [|[k' v'] o IH]; simpl.
  - now rewrite String.eqb_refl.
  - destruct (String.eqb k k') eqn:E; simpl; rewrite E; [reflexivity | now rewrite IH].
Qed.

Lemma with_buffers_twice (b1 b2 : obj Buffer) (s : MinuetWeb) :
  with_buffers b2 (with_buffers b1 s) = with_buffers b2 s.
Proof. reflexivity. Qed.

Lemma addBuffer_unfold (s : MinuetWeb) (filePath : string) (content : Buffer) :
  addBuffer s filePath content
  = with_buffers
      (set (propertyKey (addBuffer_fileName filePath (mounts s) None)) content (buffers s))
      (liftRootDir s).
Proof.
  unfold addBuffer. rewrite liftRootDir_mounts.
  replace (buffers (liftRootDir s)) with (buffers s); [reflexivity|].
  unfold liftRootDir. destruct (rootDir s); reflexivity.
Qed.

Lemma addBuffer_fileName_last (filePath : string) (pre post : obj string)
    (burl rootDir : string) :
  startsWith rootDir filePath = true ->
  (forall b r, In (b, r) post -> startsWith r filePath = false) ->
  forall fileName,
    addBuffer_fileName filePath (pre ++ (burl, rootDir) :: post)%list fileName
    = Some (urlKey burl rootDir filePath).
Proof.
  intros Hhit Hpost. induction pre as [|[b r] pre IH]; intros fileName; simpl.
  - rewrite Hhit. fold (urlKey burl rootDir filePath).
    destruct (addBuffer_fileName_spec filePath post (Some (urlKey burl rootDir filePath)))
      as [[Heq _] | (b & r & Hin & Hs & _)]; [exact Heq|].
    rewrite (Hpost _ _ Hin) in Hs. discriminate.
  - destruct (startsWith r filePath); apply IH.
Qed.

(** X1.  When several mount directories are prefixes of the file path, the last
    of them in mount order names the key. *)
Theorem addBuffer_last_match_wins
    (s : MinuetWeb) (filePath : string) (content : Buffer)
    (pre post : obj string) (burl rootDir : string) :
  mounts s = (pre ++ (burl, rootDir) :: post)%list ->
  startsWith rootDir filePath = true ->
  (forall b r, In (b, r) post -> startsWith r filePath = false) ->
  buffers (addBuffer s filePath content)
  = set (urlKey burl rootDir filePath) content (buffers s).
Proof.
  intros Hm Hhit Hpost. rewrite addBuffer_buffers, Hm.
  now rewrite (addBuffer_fileName_last filePath pre post burl rootDir Hhit Hpost).
Qed.

Lemma addBuffer_last_match_wins_witness :
  buffers (addBuffer nestedMounts "srv/sub/a.txt" "hi")
  = set (urlKey "/s" "srv/sub" "srv/sub/a.txt") "hi" (buffers nestedMounts).
Proof.
  apply (addBuffer_last_match_wins nestedMounts "srv/sub/a.txt" "hi"
           [("/", "srv")] [("/t", "tmp")] "/s" "srv/sub").
  - reflexivity.
  - reflexivity.
  - intros b r [H | []]. inversion H; subst. reflexivity.
Defined.

(** X2.  [addBuffer] writes one key: every other key of the store keeps its
    content, and no setting changes. *)
Theorem addBuffer_other_keys (s : MinuetWeb) (filePath : string) (content : Buffer)
    (k : string) :
  k <> propertyKey (addBuffer_fileName filePath (mounts s) None) ->
  get k (buffers (addBuffer s filePath content)) = get k (buffers s) /\
  sameSettings s (addBuffer s filePath content) /\
  headers (addBuffer s filePath content) = headers s.
Proof.
  intros Hk. split; [|split].
  - rewrite addBuffer_buffers. now apply get_set_other.
  - apply sameSettings_addBuffer.
  - rewrite addBuffer_unfold. unfold liftRootDir. destruct (rootDir s); reflexivity.
Qed.

Lemma addBuffer_other_keys_witness :
  get "/a.txt" (buffers (addBuffer oneTextFile "htdocs/b.txt" "there")) =
  get "/a.txt" (buffers oneTextFile) /\
  sameSettings oneTextFile (addBuffer oneTextFile "htdocs/b.txt" "there") /\
  headers (addBuffer oneTextFile "htdocs/b.txt" "there") = headers oneTextFile.
Proof.
  apply (addBuffer_other_keys oneTextFile "htdocs/b.txt" "there" "/a.txt").
  discriminate.
Defined.

(** X3.  Adding the same file path again replaces the content: the object ends
    as if only the second call had been made. *)
Theorem addBuffer_overwrites (s : MinuetWeb) (filePath : string) (c1 c2 : Buffer) :
  addBuffer (addBuffer s filePath c1) filePath c2 = addBuffer s filePath c2.
Proof.
  rewrite (addBuffer_unfold s filePath c1).
  rewrite (addBuffer_unfold (with_buffers _ (liftRootDir s)) filePath c2).
  rewrite liftRootDir_with_buffers, liftRootDir_idem, with_buffers_twice.
  rewrite (addBuffer_unfold s filePath c2).
  replace (mounts (with_buffers
                     (set (propertyKey (addBuffer_fileName filePath (mounts s) None)) c1
                        (buffers s)) (liftRootDir s)))
    with (mounts s) by (symmetry; apply liftRootDir_mounts).
  simpl. now rewrite set_set.
Qed.

(** ** search: files without a configured mime type *)

(** X4.  A file whose extension names no property of [mimes], neither one
    configured nor one inherited from the prototype of the object, is
    skipped: the scan ends, normally or with the same throw, as if the
    file were not in the listing, whatever its size. *)
Theorem search_skips_unknown_extension
    (s : MinuetWeb) (targetPath url : string) (pre post : list Dirent)
    (name : string) (content : Buffer) :
  hasMine s name = false ->
  search_list targetPath url (pre ++ File name content :: post) s
  = search_list targetPath url (pre ++ post) s.
Proof.
  intros Hmime. rewrite !search_list_app.
  pose proof (search_list_sameSettings targetPath url pre s) as Hsame.
  destruct (search_list targetPath url pre s) as [s1 [[]|e]]; [|reflexivity].
  simpl in Hsame. unfold search_list. cbn [forEach search_entry].
  now rewrite (sameSettings_hasMine _ _ name Hsame), Hmime.
Qed.

Lemma search_skips_unknown_extension_witness :
  search_list "htdocs" "/" ([File "a.txt" "a"] ++ File "notes.md" "# n" :: [File "b.css" "b"])
    initial
  = search_list "htdocs" "/" ([File "a.txt" "a"] ++ [File "b.css" "b"]) initial.
Proof.
  apply (search_skips_unknown_extension initial "htdocs" "/"
           [File "a.txt" "a"] [File "b.css" "b"] "notes.md" "# n").
  reflexivity.
Defined.

(** an extension that names a property inherited by [mimes] counts as
    known, one that names none and a missing one do not *)
Example hasMine_inherited :
  hasMine initial "x.constructor" = true /\
  hasMine initial "notes.md" = false /\
  hasMine initial "README" = false /\
  buffers (fst (search_list "htdocs" "/"
                  [File "x.constructor" "x"; File "notes.md" "# n"] initial))
  = [("/x.constructor", "x")].
Proof. repeat split. Qed.

(** ** addRootDir *)

(** X5.  [addRootDir] records the mount, replacing the directory of a prefix
    that is already mounted, and keeps every key the store holds, also
    when the scan throws part-way.  With buffering off it only records the
    mount.  With buffering on, it throws with only the mount recorded when
    the new directory cannot be listed; and when the scan completes, the
    object is the one with the mount recorded to which the files of the
    tree of the new directory that have a known extension and are within
    the size cap were added, in the order of the scan. *)
Theorem addRootDir_effect (s : MinuetWeb) (d : Disk) (prefix dir : string) :
  let recorded := with_rootDir (RootMap (set prefix dir (mounts s))) (liftRootDir s) in
  let '(s', r) := addRootDir s d prefix dir in
  mounts s' = set prefix dir (mounts s) /\
  get prefix (mounts s') = Some dir /\
  (forall k, has k (buffers s) = true -> has k (buffers s') = true) /\
  (buffering s = false -> s' = recorded /\ r = Normal tt) /\
  (buffering s = true -> readdirSync d dir = None ->
   s' = recorded /\ exists e, r = Throw e) /\
  (buffering s = true -> forall listing,
     readdirSync d dir = Some listing -> r = Normal tt ->
     s' = addFiles (storedFiles recorded dir listing) recorded).
Proof.
  unfold addRootDir. rewrite liftRootDir_mounts.
  set (s2 := with_rootDir (RootMap (set prefix dir (mounts s))) (liftRootDir s)).
  assert (Hm2 : mounts s2 = set prefix dir (mounts s)) by reflexivity.
  assert (Hb2 : buffers s2 = buffers s)
    by (unfold s2, liftRootDir; destruct (rootDir s); reflexivity).
  assert (Hbf2 : buffering s2 = buffering s)
    by (unfold s2, liftRootDir; destruct (rootDir s); reflexivity).
  lazy zeta. destruct (buffering s2) eqn:Eb.
  - unfold search. destruct (readdirSync d dir) as [listing|] eqn:Er.
    + pose proof (search_list_sameSettings dir prefix listing s2) as (_ & Hm & _).
      pose proof (search_list_has_mono dir prefix listing s2) as Hmono.
      pose proof (search_list_stored s2 dir prefix listing s2) as Hstored.
      destruct (search_list dir prefix listing s2) as [s' r]. simpl in Hm, Hmono.
      split; [congruence|]. split; [rewrite Hm, Hm2; apply get_set_same|].
      split; [intros k Hk; apply Hmono; rewrite <- Hb2 in Hk; exact Hk|].
      split; [intros H; congruence|].
      split; [intros _ H; discriminate H|].
      intros _ l0 Hl Hr. inversion Hl; subst l0 r.
      apply (Hstored s'); [apply sameSettings_refl | reflexivity].
    + split; [exact Hm2|]. split; [rewrite Hm2; apply get_set_same|].
      split; [intros k Hk; now rewrite Hb2|].
      split; [intros H; congruence|].
      split; [intros _ _; split; [reflexivity | eexists; reflexivity]|].
      intros _ l0 Hl. discriminate Hl.
  - split; [exact Hm2|]. split; [rewrite Hm2; apply get_set_same|].
    split; [intros k Hk; now rewrite Hb2|].
    split; [intros _; now split|].
    split; intros H; congruence.
Qed.

(** a mount added next to the one of a running server *)
Example addRootDir_second_mount :
  let s := fst (constructor sizeDisk (Some (mkOption None (Some (RootString "htdocs/sub"))
                                              None None None None None None None None None))) in
  buffers (fst (addRootDir s sizeDisk "/all" "htdocs"))
  = [("/deep.css", "a{}"); ("/deep.js", "var x");
     ("/all/exact.txt", "abc"); ("/all/over.txt", "abcd");
     ("/all/sub/deep.css", "a{}"); ("/all/sub/deep.js", "var x")].
Proof. reflexivity. Qed.

(** ** updateBuffer *)

(** Whatever [addBuffer] keeps, the loop of [updateBuffer] over the mounts
    keeps, also when a scan throws. *)
Lemma updateBuffer_mounts_invariant (Q : MinuetWeb -> Prop) (d : Disk) :
  (forall s filePath content, Q s -> Q (addBuffer s filePath content)) ->
  forall r s, Q s -> Q (fst (updateBuffer_mounts d r s)).
Proof.
  intros HQ r. induction r as [|[url rootDir] r IH]; intros s Hs; simpl; [exact Hs|].
  unfold search. destruct (readdirSync d rootDir) as [listing|]; [|exact Hs].
  pose proof (search_list_invariant Q HQ listing rootDir url s Hs) as H1.
  destruct (search_list rootDir url listing s) as [s1 [u|e]]; [now apply IH | exact H1].
Qed.

(** the object after a rebuild is the lifted object with another store *)
Lemma updateBuffer_shape (s : MinuetWeb) (d : Disk) :
  buffering s = true ->
  exists b, fst (updateBuffer s d) = with_buffers b (liftRootDir s).
Proof.
  intros Hb. unfold updateBuffer. rewrite Hb.
  set (start := liftRootDir (with_buffers [] s)).
  assert (HQ : exists b, fst (updateBuffer_mounts d (mounts start) start)
                         = with_buffers b (liftRootDir s)).
  { apply (updateBuffer_mounts_invariant
             (fun s' => exists b, s' = with_buffers b (liftRootDir s))).
    - intros s' filePath content [b ->]. rewrite addBuffer_unfold.
      rewrite liftRootDir_with_buffers, liftRootDir_idem. eexists. reflexivity.
    - exists []. unfold start. apply liftRootDir_with_buffers. }
  destruct (updateBuffer_mounts d (mounts start) start) as [s2 [[]|e]];
    simpl in HQ; destruct HQ as [b ->]; [|eexists; reflexivity].
  repeat (match goal with
          | |- context [match notFound ?x with _ => _ end] => destruct (notFound x)
          | |- context [match readFileSync ?a ?p with _ => _ end] =>
              destruct (readFileSync a p)
          | |- context [if listNavigator ?x then _ else _] => destruct (listNavigator x)
          end; cbn [fst]);
    eexists; reflexivity.
Qed.

(** X6.  Rebuilding twice over the same disk gives the same object and the
    same completion as rebuilding once: the rebuild starts from an empty
    store, so nothing of the previous store survives or is duplicated. *)
Theorem updateBuffer_idempotent (s : MinuetWeb) (d : Disk) :
  updateBuffer (fst (updateBuffer s d)) d = updateBuffer s d.
Proof.
  destruct (buffering s) eqn:Hb.
  - destruct (updateBuffer_shape s d Hb) as [b Hshape]. rewrite Hshape.
    unfold updateBuffer.
    replace (buffering (with_buffers b (liftRootDir s))) with true
      by (unfold liftRootDir; destruct (rootDir s); simpl; congruence).
    rewrite Hb, with_buffers_twice.
    rewrite !liftRootDir_with_buffers, liftRootDir_idem. reflexivity.
  - unfold updateBuffer. rewrite Hb. simpl. now rewrite Hb.
Qed.

(** X7.  After a rebuild that completed, a configured not-found page is in the
    store with the content read from disk, so [error] answers 404 with
    that content and never with the "ERROR" body. *)
Theorem updateBuffer_loads_notFound_page
    (s s' : MinuetWeb) (d : Disk) (page : string) :
  buffering s = true ->
  notFound s = NotFoundPage page ->
  updateBuffer s d = (s', Normal tt) ->
  exists content,
    readFileSync d page = Some content /\
    get MinuetWebBufferName.notFound (buffers s') = Some content /\
    forall res, error s' d res
                = (res_end (res_write content (res_statusCode 404 res)), true).
Proof.
  intros Hb Hpage H. unfold updateBuffer in H. rewrite Hb in H.
  set (start := liftRootDir (with_buffers [] s)) in H.
  assert (Hsame : sameSettings s
                    (fst (updateBuffer_mounts d (mounts start) start))).
  { apply (updateBuffer_mounts_invariant (sameSettings s)).
    - intros s0 filePath content Hs0.
      apply sameSettings_trans with s0; [exact Hs0 | apply sameSettings_addBuffer].
    - unfold start. rewrite liftRootDir_with_buffers.
      apply sameSettings_trans with (liftRootDir s); [apply sameSettings_lift|].
      unfold sameSettings; repeat split. }
  destruct (updateBuffer_mounts d (mounts start) start) as [s2 [[]|e]];
    [|discriminate].
  simpl in Hsame.
  destruct Hsame as (_ & _ & _ & Hb2 & _ & _ & Hn2 & _ & Hl2 & _).
  rewrite Hn2, Hpage in H.
  destruct (readFileSync d page) as [content|]; [|discriminate].
  exists content. split; [reflexivity|].
  assert (Hend : forall b,
             get MinuetWebBufferName.notFound b = Some content ->
             get MinuetWebBufferName.notFound (buffers (with_buffers b s2)) = Some content /\
             forall res, error (with_buffers b s2) d res
                         = (res_end (res_write content (res_statusCode 404 res)), true)).
  { intros b Hget. split; [exact Hget|]. intros res. unfold error. simpl.
    now rewrite Hn2, Hpage, Hb2, Hb, Hget. }
  simpl in H. destruct (listNavigator s2).
  - destruct (readFileSync d (moduleDir d ++ "/listnavigator/index.html"))
      as [template|]; [|discriminate].
    inversion H; subst s'. simpl buffers at 1.
    apply Hend. rewrite get_set_other by discriminate. simpl. apply get_set_same.
  - inversion H; subst s'. apply Hend. apply get_set_same.
Qed.

Lemma updateBuffer_loads_notFound_page_witness :
  exists content,
    readFileSync pageDisk "404.html" = Some content /\
    get MinuetWebBufferName.notFound
      (buffers (with_buffers [(MinuetWebBufferName.notFound, "<h1>gone</h1>")] missingPage))
    = Some content /\
    forall res,
      error (with_buffers [(MinuetWebBufferName.notFound, "<h1>gone</h1>")] missingPage)
        pageDisk res
      = (res_end (res_write content (res_statusCode 404 res)), true).
Proof.
  apply (updateBuffer_loads_notFound_page missingPage
           (with_buffers [(MinuetWebBufferName.notFound, "<h1>gone</h1>")] missingPage)
           pageDisk "404.html").
  - reflexivity.
  - reflexivity.
  - reflexivity.
Defined.

(** ** getUrl in closed form *)

Lemma getUrl_candidates (s : MinuetWeb) (d : Disk) (baseUrl : string) :
  getUrl s d baseUrl
  = getUrl_loop s d (map (candidateUrl baseUrl) (directoryIndexs s)) baseUrl.
Proof. reflexivity. Qed.

Lemma getUrl_loop_buffered (s : MinuetWeb) (d : Disk) :
  buffering s = true -> directReading s = false ->
  forall urlList decisionUrl,
    getUrl_loop s d urlList decisionUrl
    = (s, firstOr (fun u => has u (buffers s)) urlList decisionUrl).
Proof.
  intros Hb Hd urlList. unfold firstOr.
  induction urlList as [|url_ urlList IH]; intros decisionUrl; simpl; [reflexivity|].
  rewrite Hb, Hd. simpl. destruct (has url_ (buffers s)); [reflexivity | apply IH].
Qed.

(** X8.  With buffering on and [directReading] off the resolver never looks at
    the disk and leaves the object alone: it returns the first candidate,
    in the order of [directoryIndexs], that is a key of the store, and the
    request path as it came when there is none. *)
Theorem getUrl_buffered (s : MinuetWeb) (d : Disk) (baseUrl : string) :
  buffering s = true ->
  directReading s = false ->
  getUrl s d baseUrl
  = (s, firstOr (fun u => has u (buffers s))
          (map (candidateUrl baseUrl) (directoryIndexs s)) baseUrl).
Proof.
  intros Hb Hd. rewrite getUrl_candidates. now apply getUrl_loop_buffered.
Qed.

Lemma getUrl_buffered_witness :
  getUrl scenarioA scenarioB_disk "/?lang=en"
  = (scenarioA, firstOr (fun u => has u (buffers scenarioA))
                  (map (candidateUrl "/?lang=en") (directoryIndexs scenarioA)) "/?lang=en")
  /\ snd (getUrl scenarioA scenarioB_disk "/?lang=en") = "/index.html".
Proof.
  split; [|reflexivity].
  apply (getUrl_buffered scenarioA scenarioB_disk "/?lang=en"); reflexivity.
Defined.

Lemma getUrl_loop_unbuffered (s : MinuetWeb) (d : Disk) :
  buffering s = false ->
  forall urlList decisionUrl,
    snd (getUrl_loop s d urlList decisionUrl)
    = firstOr (getUrl_exists d (mounts s)) urlList decisionUrl.
Proof.
  intros Hb urlList. revert s Hb. unfold firstOr.
  induction urlList as [|url_ urlList IH]; intros s Hb decisionUrl; simpl; [reflexivity|].
  rewrite Hb. simpl. rewrite liftRootDir_mounts.
  destruct (getUrl_exists d (mounts s) url_); [reflexivity|].
  rewrite IH.
  - now rewrite liftRootDir_mounts.
  - destruct (sameSettings_lift s) as (_ & _ & _ & H & _). congruence.
Qed.

(** X9.  Without buffering the resolver returns the first candidate for which
    some mount directory, followed by the whole candidate, exists on disk,
    and the request path as it came when there is none. *)
Theorem getUrl_unbuffered (s : MinuetWeb) (d : Disk) (baseUrl : string) :
  buffering s = false ->
  snd (getUrl s d baseUrl)
  = firstOr (getUrl_exists d (mounts s))
      (map (candidateUrl baseUrl) (directoryIndexs s)) baseUrl.
Proof.
  intros Hb. rewrite getUrl_candidates. now apply getUrl_loop_unbuffered.
Qed.

Lemma getUrl_unbuffered_witness :
  snd (getUrl mountA mountA_disk "/x/")
  = firstOr (getUrl_exists mountA_disk (mounts mountA))
      (map (candidateUrl "/x/") (directoryIndexs mountA)) "/x/"
  /\ snd (getUrl mountA mountA_disk "/x/") = "/x/index.html".
Proof.
  split; [|reflexivity].
  apply (getUrl_unbuffered mountA mountA_disk "/x/"). reflexivity.
Defined.

(** ** getUrl and a trailing slash *)

Lemma splitFirst_app_other (c : ascii) (p q : string) :
  splitFirst c p = p -> splitFirst c (p ++ q) = p ++ splitFirst c q.
Proof.
  induction p as [|a p IH]; simpl; [reflexivity|].
  destruct (Ascii.eqb a c); [discriminate|].
  intros H. inversion H as [H']. now rewrite H', IH.
Qed.

Lemma lastCharIs_snoc (c : ascii) (p : string) :
  lastCharIs c (p ++ String c EmptyString) = true.
Proof.
  induction p as [|a p IH]; simpl; [apply Ascii.eqb_refl|].
  destruct (p ++ String c EmptyString) eqn:E; [destruct p; discriminate | exact IH].
Qed.

Lemma dropLast_snoc (c : ascii) (p : string) :
  dropLast (p ++ String c EmptyString) = p.
Proof.
  induction p as [|a p IH]; simpl; [reflexivity|].
  destruct (p ++ String c EmptyString) eqn:E; [destruct p; discriminate|].
  now rewrite IH.
Qed.

Lemma requestDir_trailing_slash (p : string) :
  splitFirst "?" p = p -> p <> EmptyString -> lastCharIs "/" p = false ->
  requestDir (p ++ "/") = p /\ requestDir p = p.
Proof.
  intros Hq Hne Hlast. unfold requestDir.
  rewrite (splitFirst_app_other "?" p "/" Hq), Hq, Hlast. simpl splitFirst.
  rewrite lastCharIs_snoc, dropLast_snoc, andb_false_r, andb_true_r.
  split; [|reflexivity].
  destruct (String.eqb (p ++ "/") "/") eqn:E; [|reflexivity].
  apply String.eqb_eq in E. destruct p as [|a [|b p]]; simpl in E; congruence.
Qed.

Lemma getUrl_loop_fallback (d : Disk) (urlList : list string) :
  forall s d1 d2,
    snd (getUrl_loop s d urlList d1) = snd (getUrl_loop s d urlList d2)
    \/ (snd (getUrl_loop s d urlList d1) = d1 /\ snd (getUrl_loop s d urlList d2) = d2).
Proof.
  induction urlList as [|url_ urlList IH]; intros s d1 d2; simpl.
  - right. now split.
  - destruct (buffering s && has url_ (buffers s)); [now left|].
    destruct (buffering s && negb (directReading s)); [apply IH|].
    destruct (getUrl_exists d (mounts (liftRootDir s)) url_); [now left | apply IH].
Qed.

(** X10.  A directory path with and without a trailing slash is resolved alike:
    both requests try the same candidates, so either both resolve to the
    same index file, or neither does and each falls back to its own
    request path. *)
Theorem getUrl_trailing_slash (s : MinuetWeb) (d : Disk) (p : string) :
  splitFirst "?" p = p ->
  p <> EmptyString ->
  lastCharIs "/" p = false ->
  snd (getUrl s d (p ++ "/")) = snd (getUrl s d p)
  \/ (snd (getUrl s d (p ++ "/")) = p ++ "/" /\ snd (getUrl s d p) = p).
Proof.
  intros Hq Hne Hlast. rewrite !getUrl_candidates.
  destruct (requestDir_trailing_slash p Hq Hne Hlast) as [H1 H2].
  replace (map (candidateUrl (p ++ "/")) (directoryIndexs s))
    with (map (candidateUrl p) (directoryIndexs s)).
  - apply getUrl_loop_fallback.
  - apply map_ext. intros index. unfold candidateUrl. now rewrite H1, H2.
Qed.

Lemma getUrl_trailing_slash_witness :
  snd (getUrl mountA mountA_disk ("/x" ++ "/")) = snd (getUrl mountA mountA_disk "/x")
  \/ (snd (getUrl mountA mountA_disk ("/x" ++ "/")) = "/x" ++ "/" /\
      snd (getUrl mountA mountA_disk "/x") = "/x").
Proof.
  apply (getUrl_trailing_slash mountA mountA_disk "/x").
  - reflexivity.
  - discriminate.
  - reflexivity.
Defined.

(** ** readFile: which path is read *)

Lemma readFile_mounts_settings (s s' : MinuetWeb) (d : Disk) (targetPath : string) :
  url s' = url s -> directoryIndexs s' = directoryIndexs s ->
  forall c decisionPath,
    readFile_mounts s' d targetPath c decisionPath
    = readFile_mounts s d targetPath c decisionPath.
Proof.
  intros Hu Hi c.
  assert (Hidx : forall rootDir burl indexes,
             readFile_indexes s' d rootDir burl targetPath indexes
             = readFile_indexes s d rootDir burl targetPath indexes).
  { intros rootDir burl indexes. induction indexes as [|index indexes IH]; simpl;
      [reflexivity|].
    unfold targetFullPathIndex. now rewrite Hu, IH. }
  induction c as [|[burl rootDir] c IH]; intros decisionPath; simpl; [reflexivity|].
  unfold targetFullPath. rewrite Hu, Hi, Hidx.
  destruct (isRegularFile d _); [reflexivity|].
  destruct (readFile_indexes s d rootDir burl targetPath (directoryIndexs s)); apply IH.
Qed.

Lemma readFile_unbuffered (s : MinuetWeb) (d : Disk) (targetPath : string) :
  (if buffering s then get targetPath (buffers s) else None) = None ->
  readFile s d targetPath
  = (liftRootDir s,
     match readFile_mounts s d targetPath (mounts s) None with
     | None => Normal None
     | Some decisionPath =>
         match readFileSync d decisionPath with
         | None => Throw "ENOENT"
         | Some content => Normal (Some (mkFileResult content (getMime s decisionPath)))
         end
     end).
Proof.
  intros Hmiss. unfold readFile. rewrite Hmiss, liftRootDir_mounts.
  destruct (sameSettings_lift s) as (Hu & _ & Hm & _ & _ & _ & _ & Hi & _).
  rewrite (readFile_mounts_settings s (liftRootDir s) d targetPath Hu Hi).
  destruct (readFile_mounts s d targetPath (mounts s) None) as [p|]; [|reflexivity].
  unfold getMime. rewrite Hm. destruct (readFileSync d p); reflexivity.
Qed.

Lemma readFile_mounts_direct (s : MinuetWeb) (d : Disk) (targetPath : string)
    (pre post : obj string) (burl dir : string) :
  (forall b r, In (b, r) pre -> isRegularFile d (targetFullPath s r b targetPath) = false) ->
  isRegularFile d (targetFullPath s dir burl targetPath) = true ->
  forall decisionPath,
    readFile_mounts s d targetPath (pre ++ (burl, dir) :: post)%list decisionPath
    = Some (targetFullPath s dir burl targetPath).
Proof.
  intros Hpre Hhit. induction pre as [|[b r] pre IH]; intros decisionPath; simpl.
  - now rewrite Hhit.
  - rewrite (Hpre b r) by now left.
    assert (Hpre' : forall b0 r0, In (b0, r0) pre ->
                      isRegularFile d (targetFullPath s r0 b0 targetPath) = false)
      by (intros; apply Hpre; now right).
    destruct (readFile_indexes s d r b targetPath (directoryIndexs s)); now apply IH.
Qed.

(** X11.  On a buffer miss, the first mount in order whose direct path is a
    regular file decides, whatever index files earlier mounts hold and
    whatever later mounts hold; the file is read from disk whether or not
    [directReading] is set. *)
Theorem readFile_first_direct_hit
    (s : MinuetWeb) (d : Disk) (targetPath : string)
    (pre post : obj string) (burl dir : string) (data : Buffer) :
  (if buffering s then get targetPath (buffers s) else None) = None ->
  mounts s = (pre ++ (burl, dir) :: post)%list ->
  (forall b r, In (b, r) pre -> isRegularFile d (targetFullPath s r b targetPath) = false) ->
  isRegularFile d (targetFullPath s dir burl targetPath) = true ->
  readFileSync d (targetFullPath s dir burl targetPath) = Some data ->
  readFile s d targetPath
  = (liftRootDir s,
     Normal (Some (mkFileResult data (getMime s (targetFullPath s dir burl targetPath))))).
Proof.
  intros Hmiss Hm Hpre Hhit Hread.
  rewrite (readFile_unbuffered s d targetPath Hmiss), Hm.
  now rewrite (readFile_mounts_direct s d targetPath pre post burl dir Hpre Hhit), Hread.
Qed.

Lemma readFile_first_direct_hit_witness :
  readFile missedFile (scenarioD_disk "AAA" "BBB") "/b/x.txt"
  = (liftRootDir missedFile,
     Normal (Some (mkFileResult "AAA"
                     (getMime missedFile (targetFullPath missedFile "dirA" "/a" "/b/x.txt"))))).
Proof.
  apply (readFile_first_direct_hit missedFile (scenarioD_disk "AAA" "BBB") "/b/x.txt"
           [] [("/b", "dirB")] "/a" "dirA" "AAA").
  - reflexivity.
  - reflexivity.
  - intros b r [].
  - reflexivity.
  - reflexivity.
Defined.

Lemma readFile_indexes_none (s : MinuetWeb) (d : Disk) (dir burl targetPath : string)
    (indexes : list string) :
  (forall index, In index indexes ->
     isRegularFile d (targetFullPathIndex s dir burl targetPath index) = false) ->
  readFile_indexes s d dir burl targetPath indexes = None.
Proof.
  induction indexes as [|index indexes IH]; intros H; simpl; [reflexivity|].
  rewrite (H index) by now left. apply IH. intros; apply H; now right.
Qed.

Lemma readFile_mounts_nothing (s : MinuetWeb) (d : Disk) (targetPath : string)
    (c : obj string) :
  (forall m, In m c -> nothingUnder s d targetPath m) ->
  forall decisionPath, readFile_mounts s d targetPath c decisionPath = decisionPath.
Proof.
  induction c as [|[burl dir] c IH]; intros H decisionPath; simpl; [reflexivity|].
  destruct (H (burl, dir)) as [Hdirect Hindex]; [now left|]. simpl in Hdirect, Hindex.
  rewrite Hdirect, (readFile_indexes_none s d dir burl targetPath _ Hindex).
  apply IH. intros; apply H; now right.
Qed.

Lemma readFile_mounts_index (s : MinuetWeb) (d : Disk) (targetPath : string)
    (pre post : obj string) (burl dir p : string) :
  (forall b r, In (b, r) pre -> isRegularFile d (targetFullPath s r b targetPath) = false) ->
  isRegularFile d (targetFullPath s dir burl targetPath) = false ->
  readFile_indexes s d dir burl targetPath (directoryIndexs s) = Some p ->
  (forall m, In m post -> nothingUnder s d targetPath m) ->
  forall decisionPath,
    readFile_mounts s d targetPath (pre ++ (burl, dir) :: post)%list decisionPath = Some p.
Proof.
  intros Hpre Hdirect Hindex Hpost.
  induction pre as [|[b r] pre IH]; intros decisionPath; simpl.
  - rewrite Hdirect, Hindex. now apply readFile_mounts_nothing.
  - rewrite (Hpre b r) by now left.
    assert (Hpre' : forall b0 r0, In (b0, r0) pre ->
                      isRegularFile d (targetFullPath s r0 b0 targetPath) = false)
      by (intros; apply Hpre; now right).
    destruct (readFile_indexes s d r b targetPath (directoryIndexs s)); now apply IH.
Qed.

(** X12.  When no mount has a regular file at the direct path, the decision is
    the index file of the last mount in order that has one: index files of
    earlier mounts are found and then overwritten. *)
Theorem readFile_last_index_hit
    (s : MinuetWeb) (d : Disk) (targetPath : string)
    (pre post : obj string) (burl dir p : string) (data : Buffer) :
  (if buffering s then get targetPath (buffers s) else None) = None ->
  mounts s = (pre ++ (burl, dir) :: post)%list ->
  (forall b r, In (b, r) pre -> isRegularFile d (targetFullPath s r b targetPath) = false) ->
  isRegularFile d (targetFullPath s dir burl targetPath) = false ->
  readFile_indexes s d dir burl targetPath (directoryIndexs s) = Some p ->
  (forall m, In m post -> nothingUnder s d targetPath m) ->
  readFileSync d p = Some data ->
  readFile s d targetPath
  = (liftRootDir s, Normal (Some (mkFileResult data (getMime s p)))).
Proof.
  intros Hmiss Hm Hpre Hdirect Hindex Hpost Hread.
  rewrite (readFile_unbuffered s d targetPath Hmiss), Hm.
  rewrite (readFile_mounts_index s d targetPath pre post burl dir p
             Hpre Hdirect Hindex Hpost).
  now rewrite Hread.
Qed.

Lemma readFile_last_index_hit_witness :
  readFile twoMounts twoIndexes_disk "/a/x"
  = (liftRootDir twoMounts,
     Normal (Some (mkFileResult "B-index" (getMime twoMounts "dirB/x/index.html")))).
Proof.
  apply (readFile_last_index_hit twoMounts twoIndexes_disk "/a/x"
           [("/a", "dirA")] [] "/b" "dirB" "dirB/x/index.html" "B-index").
  - reflexivity.
  - reflexivity.
  - intros b r [H | []]. inversion H; subst. reflexivity.
  - reflexivity.
  - reflexivity.
  - intros m [].
  - reflexivity.
Defined.

Lemma readFile_lifted_result (s s1 : MinuetWeb) (d : Disk) (targetPath : string) :
  lifted s s1 -> snd (readFile s1 d targetPath) = snd (readFile s d targetPath).
Proof.
  intros [-> | ->]; [reflexivity|].
  unfold readFile.
  destruct (sameSettings_lift s) as (_ & _ & Hm & Hb & _).
  rewrite Hb, (lifted_buffers s (liftRootDir s)) by now right.
  destruct (if buffering s then get targetPath (buffers s) else None).
  - unfold getMime. now rewrite Hm.
  - rewrite liftRootDir_idem. reflexivity.
Qed.

(** X13.  When the resolved url is not in the store and no mount has a regular
    file for it, neither at the direct path nor under an index name,
    [listen] answers with whatever [error] does for the [notFound] setting:
    nothing and false, an empty 404, or the not-found page. *)
Theorem listen_nothing_to_serve
    (s : MinuetWeb) (d : Disk) (d_ : Date) (req_url u : string) (res : ServerResponse) :
  snd (getUrl s d (splitFirst "?" req_url)) = u ->
  u <> EmptyString ->
  (if buffering s then get u (buffers s) else None) = None ->
  (forall m, In m (mounts s) -> nothingUnder s d u m) ->
  snd (fst (listen s d d_ req_url res)) = fst (error s d res) /\
  snd (listen s d d_ req_url res) = Normal (snd (error s d res)).
Proof.
  intros Hu Hne Hmiss Hnothing. unfold listen.
  pose proof (getUrl_lifted s d (splitFirst "?" req_url)) as Hl1.
  destruct (getUrl s d (splitFirst "?" req_url)) as [s1 u']. simpl in Hl1, Hu. subst u'.
  apply String.eqb_neq in Hne. rewrite Hne.
  pose proof (readFile_lifted s1 d u) as Hl2.
  pose proof (readFile_lifted_result s s1 d u Hl1) as Hr.
  destruct (readFile s1 d u) as [s2 r]. simpl in Hl2, Hr.
  rewrite (readFile_unbuffered s d u Hmiss) in Hr. simpl in Hr.
  rewrite (readFile_mounts_nothing s d u (mounts s) Hnothing) in Hr. subst r. simpl.
  rewrite (error_lifted s s2 d res (lifted_trans _ _ _ Hl1 Hl2)).
  destruct (error s d res). now split.
Qed.

Lemma listen_nothing_to_serve_witness :
  snd (fst (listen scenarioB scenarioB_disk someDate "/missing.png" newResponse))
  = fst (error scenarioB scenarioB_disk newResponse) /\
  snd (listen scenarioB scenarioB_disk someDate "/missing.png" newResponse)
  = Normal (snd (error scenarioB scenarioB_disk newResponse)).
Proof.
  apply (listen_nothing_to_serve scenarioB scenarioB_disk someDate "/missing.png"
           "/missing.png" newResponse).
  - reflexivity.
  - discriminate.
  - reflexivity.
  - intros m [<- | []]. split; [reflexivity | intros index []].
Defined.

(** ** The 200 response *)

Lemma setHeader_loop_frame (c : obj string) :
  forall res,
    statusCode (fst (setHeader_loop c res)) = statusCode res /\
    body (fst (setHeader_loop c res)) = body res.
Proof.
  induction c as [|[name value] c IH]; intros res; simpl; [now split|].
  unfold res_setHeader.
  destruct (headersSent res); [now split|].
  destruct (negb (validHeaderName name)); [now split|].
  destruct (negb (validHeaderValue value)); [now split|].
  match goal with
  | |- context [setHeader_loop c ?r] => destruct (IH r) as [H1 H2]
  end.
  now rewrite H1, H2.
Qed.

(** with headers that the response accepts the copy completes, and a
    later name overrides an earlier one that differs only in case *)
Lemma setHeader_loop_accepted (n : string) (c : obj string) :
  Forall (fun h => validHeaderName (fst h) = true /\ validHeaderValue (snd h) = true) c ->
  forall res,
    headersSent res = false ->
    snd (setHeader_loop c res) = Normal tt /\
    get n (sentHeaders (fst (setHeader_loop c res)))
    = match sentValue n c with Some v => Some v | None => get n (sentHeaders res) end.
Proof.
  induction 1 as [|[name value] c [Hn Hv] _ IH]; intros res Hsent; simpl in *; [now split|].
  unfold res_setHeader. rewrite Hsent, Hn, Hv. simpl.
  match goal with
  | |- context [setHeader_loop c ?r] => destruct (IH r eq_refl) as [H1 H2]
  end.
  split; [exact H1|]. rewrite H2. simpl.
  destruct (sentValue n c); [reflexivity|].
  destruct (String.eqb (toLowerCase name) n) eqn:E.
  - apply String.eqb_eq in E. subst n. apply get_set_same.
  - apply String.eqb_neq in E. apply get_set_other. congruence.
Qed.

Lemma sentValue_none (n : string) (h : obj string) :
  (forall name, In name (keys h) -> toLowerCase name <> n) -> sentValue n h = None.
Proof.
  induction h as [|[name value] h IH]; intros H; simpl; [reflexivity|].
  rewrite IH by (intros k Hk; apply H; now right).
  destruct (String.eqb (toLowerCase name) n) eqn:E; [|reflexivity].
  apply String.eqb_eq in E. exfalso. apply (H name); [now left | exact E].
Qed.

Lemma sentValue_set (n v : string) (h : obj string) :
  toLowerCase n = n ->
  NoDup (keys h) ->
  (forall name, In name (keys h) -> toLowerCase name = n -> name = n) ->
  sentValue n (set n v h) = Some v.
Proof.
  intros Hlow. induction h as [|[name value] h IH]; intros Hnd Honly; simpl.
  - now rewrite Hlow, String.eqb_refl.
  - inversion Hnd as [|? ? Hnot Hnd']; subst.
    destruct (String.eqb n name) eqn:E; simpl.
    + apply String.eqb_eq in E. subst name.
      rewrite sentValue_none; [now rewrite Hlow, String.eqb_refl|].
      intros k Hk Hkn. apply Hnot. rewrite <- (Honly k); [exact Hk | now right | exact Hkn].
    + rewrite IH; [reflexivity | exact Hnd' |]. intros k Hk. apply Honly. now right.
Qed.

(** X14.  Take a response whose headers are not sent yet, and a
    configuration whose header names and values, like the mime type of the
    file, are accepted by [res.setHeader].  Then the statements after the
    [try] block complete, and the response has status 200, the content
    appended to the body, and is ended.  A header is sent under its name
    in lower case, with the value of the last configured name that equals
    it up to case, the assigned "content-type" included; headers the
    configuration does not name stay as they were on the response.  So
    the content-type sent is the mime type of the file unless the
    configuration spells that name in another case. *)
Theorem respondOk_response
    (s : MinuetWeb) (req_url : string) (res : ServerResponse)
    (data : Buffer) (type : string) :
  headersSent res = false ->
  validHeaderValue type = true ->
  Forall (fun h => validHeaderName (fst h) = true /\ validHeaderValue (snd h) = true)
    (headers s) ->
  exists s' res',
    respondOk s req_url res data type = (s', res', Normal tt) /\
    statusCode res' = 200%Z /\
    body res' = body res ++ data /\
    ended res' = true /\
    (forall n,
        get n (sentHeaders res')
        = match sentValue n (set "content-type" type (headers s)) with
          | Some v => Some v
          | None => get n (sentHeaders res)
          end) /\
    (NoDup (keys (headers s)) ->
     (forall name, In name (keys (headers s)) ->
                   toLowerCase name = "content-type" -> name = "content-type") ->
     get "content-type" (sentHeaders res') = Some type).
Proof.
  intros Hsent Htype Hvalid.
  assert (Hvalid' : Forall (fun h => validHeaderName (fst h) = true
                                     /\ validHeaderValue (snd h) = true)
                      (set "content-type" type (headers s))).
  { clear Hsent. induction (headers s) as [|[name value] h IH]; cbn [set].
    - constructor; [now split | constructor].
    - inversion Hvalid as [|? ? [Hn Hv] Hrest]; subst.
      destruct (String.eqb "content-type" name); constructor; auto. }
  rewrite respondOk_cases. unfold setHeader. simpl headers.
  pose proof (setHeader_loop_frame (set "content-type" type (headers s))
                (res_statusCode 200 res)) as [Hstatus Hbody].
  pose proof (setHeader_loop_ended (set "content-type" type (headers s))
                (res_statusCode 200 res)) as Hended.
  assert (Hget : forall n, _) by
    (intros n; exact (setHeader_loop_accepted n _ Hvalid' (res_statusCode 200 res) Hsent)).
  destruct (setHeader_loop (set "content-type" type (headers s)) (res_statusCode 200 res))
    as [resH c]. simpl in *.
  destruct (Hget "content-type") as [-> _].
  eexists. eexists. split; [reflexivity|]. simpl.
  split; [exact Hstatus|]. split; [now rewrite Hbody|]. split; [reflexivity|].
  split; [intros n; apply (Hget n)|].
  intros Hnd Honly. destruct (Hget "content-type") as [_ ->].
  now rewrite (sentValue_set "content-type" type (headers s) eq_refl Hnd Honly).
Qed.

Lemma respondOk_response_witness :
  exists s' res',
    respondOk withHeaders "/a.txt" newResponse "hi" "text/plain" = (s', res', Normal tt) /\
    statusCode res' = 200%Z /\
    body res' = body newResponse ++ "hi" /\
    ended res' = true /\
    (forall n,
        get n (sentHeaders res')
        = match sentValue n (set "content-type" "text/plain" (headers withHeaders)) with
          | Some v => Some v
          | None => get n (sentHeaders newResponse)
          end) /\
    (NoDup (keys (headers withHeaders)) ->
     (forall name, In name (keys (headers withHeaders)) ->
                   toLowerCase name = "content-type" -> name = "content-type") ->
     get "content-type" (sentHeaders res') = Some "text/plain").
Proof.
  apply (respondOk_response withHeaders "/a.txt" newResponse "hi" "text/plain").
  - reflexivity.
  - reflexivity.
  - repeat constructor.
Defined.

(** a configured name in another case overrides the mime type when it
    comes later in the configuration, and a name that is no token stops
    the copy with the status already set *)
Example respondOk_other_case :
  let s := with_headers [("content-type", "a/b"); ("Content-Type", "text/x")] withHeaders in
  snd (fst (respondOk s "/a.txt" newResponse "hi" "text/plain"))
  = mkResponse 200 [("content-type", "text/x")] "hi" true.
Proof. reflexivity. Qed.

Example respondOk_invalid_name :
  let s := with_headers [("x-a", "1"); ("bad name", "2")] withHeaders in
  respondOk s "/a.txt" newResponse "hi" "text/plain"
  = (with_headers [("x-a", "1"); ("bad name", "2"); ("content-type", "text/plain")] withHeaders,
     mkResponse 200 [("x-a", "1")] EmptyString false,
     Throw "ERR_INVALID_HTTP_TOKEN").
Proof. reflexivity. Qed.

(** the same through [listen] *)
Example withHeaders_request :
  snd (fst (listen withHeaders scenarioB_disk someDate "/a.txt" newResponse))
  = mkResponse 200 [("cache-control", "no-store"); ("content-type", "text/plain")]
      "hi" true.
Proof. reflexivity. Qed.

(** ** The access log *)

Lemma lifted_accessLog (s s' : MinuetWeb) : lifted s s' -> accessLog s' = accessLog s.
Proof. intros [-> | ->]; [reflexivity|]. unfold liftRootDir. now destruct (rootDir s). Qed.

(** X15.  One call of [listen] hands the logger at most one entry, the
    configured log mode with the request url, and only together with a 200
    response; without a log mode, with an empty one or without a logger
    nothing is logged. *)
Theorem listen_accessLog (s : MinuetWeb) (d : Disk) (d_ : Date) (req_url : string)
    (res : ServerResponse) :
  let '(s', res', r) := listen s d d_ req_url res in
  accessLog s' = accessLog s
  \/ (exists mode,
        logAccess s = Some mode /\ mode <> EmptyString /\ logger s = true /\
        r = Normal true /\ statusCode res' = 200%Z /\
        accessLog s' = (accessLog s ++ [(mode, req_url)])%list).
Proof.
  unfold listen.
  pose proof (getUrl_lifted s d (splitFirst "?" req_url)) as Hl1.
  destruct (getUrl s d (splitFirst "?" req_url)) as [s1 u]. simpl in Hl1.
  destruct (String.eqb u EmptyString).
  - pose proof (lifted_accessLog _ _ Hl1) as Ha.
    destruct (listNavigator s1).
    + destruct (isDirectory s1 d_ req_url res) as [res' [[|]|e]];
        lazy beta iota; [|destruct (error s1 d res')|]; now left.
    + destruct (error s1 d res); now left.
  - pose proof (readFile_lifted s1 d u) as Hl2.
    destruct (readFile s1 d u) as [s2 r]. simpl in Hl2.
    pose proof (lifted_trans _ _ _ Hl1 Hl2) as Hl.
    pose proof (lifted_accessLog _ _ Hl) as Ha.
    destruct (lifted_sameSettings _ _ Hl)
      as (_ & _ & _ & _ & _ & _ & _ & _ & _ & Hmode & Hlogger).
    destruct (loaded r) as [[data type]|]; [|destruct (error s2 d res); now left].
    rewrite respondOk_cases.
    set (s3 := with_headers (set "content-type" type (headers s2)) s2).
    pose proof (setHeader_loop_frame (headers s3) (res_statusCode 200 res)) as [Hst _].
    unfold setHeader.
    destruct (setHeader_loop (headers s3) (res_statusCode 200 res)) as [resH [[]|e]];
      lazy beta iota; [|left; exact Ha].
    unfold log. change (logAccess s3) with (logAccess s2).
    change (logger s3) with (logger s2). rewrite Hmode, Hlogger.
    destruct (logAccess s) as [mode|]; [|now left].
    destruct (String.eqb mode EmptyString) eqn:Em; [now left|].
    destruct (logger s); [|now left].
    right. exists mode. apply String.eqb_neq in Em.
    repeat split; auto.
    simpl. now rewrite Ha.
Qed.

(** ** The query string *)

Lemma append_empty_r (p : string) : p ++ EmptyString = p.
Proof. induction p as [|a p IH]; simpl; [reflexivity | now rewrite IH]. Qed.

Lemma splitFirst_query (p q : string) :
  splitFirst "?" p = p -> splitFirst "?" (p ++ "?" ++ q) = p.
Proof.
  intros H. rewrite (splitFirst_app_other "?" p ("?" ++ q) H). simpl.
  apply append_empty_r.
Qed.

(** X16.  What follows the first "?" of the request url has no influence on the
    response or on the value returned. *)
Theorem listen_ignores_query
    (s : MinuetWeb) (d : Disk) (d_ : Date) (path query : string) (res : ServerResponse) :
  splitFirst "?" path = path ->
  snd (fst (listen s d d_ (path ++ "?" ++ query) res)) = snd (fst (listen s d d_ path res)) /\
  snd (listen s d d_ (path ++ "?" ++ query) res) = snd (listen s d d_ path res).
Proof.
  intros Hp. unfold listen. rewrite (splitFirst_query path query Hp), Hp.
  destruct (getUrl s d path) as [s1 u].
  destruct (String.eqb u EmptyString).
  - destruct (listNavigator s1).
    + replace (isDirectory s1 d_ (path ++ "?" ++ query) res)
        with (isDirectory s1 d_ path res)
        by (unfold isDirectory; now rewrite (splitFirst_query path query Hp), Hp).
      destruct (isDirectory s1 d_ path res) as [res' [[|]|e]]; lazy beta iota;
        [| destruct (error s1 d res') |]; now split.
    + destruct (error s1 d res); now split.
  - destruct (readFile s1 d u) as [s2 r].
    destruct (loaded r) as [[data type]|]; [|destruct (error s2 d res); now split].
    rewrite !respondOk_cases.
    destruct (setHeader (with_headers (set "content-type" type (headers s2)) s2)
                (res_statusCode 200 res)) as [resH [[]|e]]; now split.
Qed.

Lemma listen_ignores_query_witness :
  snd (fst (listen oneTextFile scenarioB_disk someDate ("/a.txt" ++ "?" ++ "v=2") newResponse))
  = snd (fst (listen oneTextFile scenarioB_disk someDate "/a.txt" newResponse)) /\
  snd (listen oneTextFile scenarioB_disk someDate ("/a.txt" ++ "?" ++ "v=2") newResponse)
  = snd (listen oneTextFile scenarioB_disk someDate "/a.txt" newResponse).
Proof.
  apply (listen_ignores_query oneTextFile scenarioB_disk someDate "/a.txt" "v=2" newResponse).
  reflexivity.
Defined.

(** ** getDirectories *)

Lemma startsWith_append (u r : string) : startsWith u (u ++ r) = true.
Proof.
  induction u as [|a u IH]; simpl; [reflexivity|].
  now rewrite Ascii.eqb_refl, IH.
Qed.

Lemma substringFrom_append (u r : string) :
  substringFrom (String.length u) (u ++ r) = r.
Proof. induction u as [|a u IH]; simpl; [reflexivity | exact IH]. Qed.

Lemma splitLength_append (c : ascii) (a b : string) :
  splitLength c (a ++ String c b) = splitLength c a + splitLength c b.
Proof.
  induction a as [|x a IH]; simpl.
  - now rewrite Ascii.eqb_refl.
  - destruct (Ascii.eqb x c); simpl; now rewrite IH.
Qed.

Lemma splitLength_positive (c : ascii) (a : string) : 1 <= splitLength c a.
Proof.
  induction a as [|x a IH]; simpl; [lia|]. destruct (Ascii.eqb x c); lia.
Qed.

(** X17.  With buffering on, the entries listed for a directory url are keys of
    the store; a key made of the url, a slash and a name without slash is
    always listed, and a key one level deeper never is.  With buffering
    off nothing is listed. *)
Theorem getDirectories_children (s : MinuetWeb) (dir name sub : string) :
  splitLength "/" name = 1 ->
  (forall file, In file (getDirectories s dir) -> In file (keys (buffers s))) /\
  (buffering s = true ->
   In (dir ++ "/" ++ name) (keys (buffers s)) ->
   In (dir ++ "/" ++ name) (getDirectories s dir)) /\
  ~ In (dir ++ "/" ++ sub ++ "/" ++ name) (getDirectories s dir) /\
  (buffering s = false -> getDirectories s dir = []).
Proof.
  intros Hname. unfold getDirectories. split; [|split; [|split]].
  - intros file H. destruct (buffering s); [|contradiction].
    now apply filter_In in H as [H _].
  - intros Hb Hin. rewrite Hb. apply filter_In. split; [exact Hin|].
    rewrite startsWith_append, substringFrom_append. simpl. now rewrite Hname.
  - destruct (buffering s); [|tauto]. intros H.
    apply filter_In in H as [_ H]. apply andb_true_iff in H as [_ H].
    rewrite substringFrom_append in H. apply Nat.eqb_eq in H.
    change ("/" ++ sub ++ "/" ++ name) with (String "/" (sub ++ String "/" name)) in H.
    simpl in H. rewrite splitLength_append in H.
    pose proof (splitLength_positive "/" sub). lia.
  - now intros ->.
Qed.

Lemma getDirectories_children_witness :
  (forall file, In file (getDirectories oneTextFile EmptyString) ->
                In file (keys (buffers oneTextFile))) /\
  (buffering oneTextFile = true ->
   In (EmptyString ++ "/" ++ "a.txt") (keys (buffers oneTextFile)) ->
   In (EmptyString ++ "/" ++ "a.txt") (getDirectories oneTextFile EmptyString)) /\
  ~ In (EmptyString ++ "/" ++ "css" ++ "/" ++ "a.txt") (getDirectories oneTextFile EmptyString) /\
  (buffering oneTextFile = false -> getDirectories oneTextFile EmptyString = []).
Proof.
  apply (getDirectories_children oneTextFile EmptyString "a.txt" "css").
  reflexivity.
Defined.

(** ** MinuetServerModuleWeb.onListen *)

(** X18.  With a logger whose [write] returns, [onListen] resolves to
    [undefined] in exactly two situations.  Either the resolved url is
    empty, [listNavigator] and buffering are on, and the listing template
    is not in the store.  Or content with a mime type was loaded and the
    response refuses one of the configured headers, the assigned
    "content-type" included, when they are copied to it.  In both nothing
    has been written to the response and it is not ended by the call. *)
Theorem onListen_undefined (web : MinuetWeb) (d : Disk) (d_ : Date) (req_url : string)
    (res : ServerResponse) :
  let '(web', res', r) := onListen web d d_ req_url res in
  (r = None <->
   (snd (getUrl web d (splitFirst "?" req_url)) = EmptyString /\
    listNavigator web = true /\ buffering web = true /\
    get MinuetWebBufferName.listNavigator (buffers web) = None)
   \/ (exists content mime e,
         served web d req_url = Some (content, mime) /\
         snd (setHeader_loop (set "content-type" mime (headers web))
                (res_statusCode 200 res)) = Throw e)) /\
  (r = None -> body res' = body res /\ ended res' = ended res).
Proof.
  unfold onListen, listen, served.
  pose proof (getUrl_lifted web d (splitFirst "?" req_url)) as Hl1.
  destruct (getUrl web d (splitFirst "?" req_url)) as [s1 u]. simpl in Hl1. simpl snd.
  destruct (lifted_sameSettings _ _ Hl1) as (_ & _ & _ & _ & _ & _ & _ & _ & Hln & _).
  destruct (String.eqb u EmptyString) eqn:Eu.
  - apply String.eqb_eq in Eu. subst u. rewrite Hln.
    destruct (listNavigator web).
    + rewrite (isDirectory_lifted _ _ d_ req_url res Hl1). unfold isDirectory.
      destruct (buffering web).
      * destruct (get MinuetWebBufferName.listNavigator (buffers web)); lazy beta iota.
        -- split; [split; [discriminate|] | discriminate].
           intros [(_ & _ & _ & H) | (c & m & e & H & _)]; discriminate.
        -- split; [split; [intros _; left; tauto | reflexivity] | now split].
      * lazy beta iota. split; [split; [discriminate|] | discriminate].
        intros [(_ & _ & H & _) | (c & m & e & H & _)]; discriminate.
    + destruct (error s1 d res). lazy beta iota.
      split; [split; [discriminate|] | discriminate].
      intros [(_ & H & _) | (c & m & e & H & _)]; discriminate.
  - apply String.eqb_neq in Eu.
    pose proof (readFile_lifted s1 d u) as Hl2.
    destruct (readFile s1 d u) as [s2 r]. simpl in Hl2. simpl snd.
    pose proof (lifted_headers _ _ (lifted_trans _ _ _ Hl1 Hl2)) as Hh.
    destruct (loaded r) as [[data type]|].
    + rewrite respondOk_cases. unfold setHeader. simpl headers. rewrite Hh.
      pose proof (setHeader_loop_frame (set "content-type" type (headers web))
                    (res_statusCode 200 res)) as [_ Hbody].
      pose proof (setHeader_loop_ended (set "content-type" type (headers web))
                    (res_statusCode 200 res)) as Hended.
      destruct (setHeader_loop (set "content-type" type (headers web))
                  (res_statusCode 200 res)) as [resH [[]|e]] eqn:E; lazy beta iota.
      * split; [split; [discriminate|] | discriminate].
        intros [(H & _) | (c & m & e & H & Ht)]; [contradiction|].
        inversion H; subst c m. rewrite E in Ht. discriminate.
      * split; [|intros _; now split].
        split; [|reflexivity]. intros _. right. exists data, type, e.
        split; [reflexivity | now rewrite E].
    + destruct (error s2 d res). lazy beta iota.
      split; [split; [discriminate|] | discriminate].
      intros [(H & _) | (c & m & e & H & _)]; [contradiction | discriminate].
Qed.

(** a configured header name with a space, which the response refuses *)
Example onListen_refused_header :
  onListen (with_headers [("bad name", "1")] oneTextFile) scenarioB_disk someDate "/a.txt"
    newResponse
  = (with_headers [("bad name", "1"); ("content-type", "text/plain")] oneTextFile,
     mkResponse 200 [] EmptyString false, None).
Proof. reflexivity. Qed.

(** ** Buffering switched off *)

Lemma getUrl_loop_ignores_store (d : Disk) (b : obj Buffer) (urlList : list string) :
  forall s decisionUrl,
    buffering s = false ->
    getUrl_loop (with_buffers b s) d urlList decisionUrl
    = (with_buffers b (fst (getUrl_loop s d urlList decisionUrl)),
       snd (getUrl_loop s d urlList decisionUrl)).
Proof.
  induction urlList as [|url_ urlList IH]; intros s decisionUrl Hb; simpl; [reflexivity|].
  rewrite Hb. simpl. rewrite liftRootDir_with_buffers.
  replace (mounts (with_buffers b (liftRootDir s))) with (mounts (liftRootDir s))
    by reflexivity.
  destruct (getUrl_exists d (mounts (liftRootDir s)) url_); [reflexivity|].
  apply IH. destruct (sameSettings_lift s) as (_ & _ & _ & H & _). congruence.
Qed.

Lemma readFile_ignores_store (s : MinuetWeb) (d : Disk) (b : obj Buffer)
    (targetPath : string) :
  buffering s = false ->
  readFile (with_buffers b s) d targetPath
  = (with_buffers b (fst (readFile s d targetPath)), snd (readFile s d targetPath)).
Proof.
  intros Hb.
  rewrite (readFile_unbuffered s d targetPath) by now rewrite Hb.
  rewrite (readFile_unbuffered (with_buffers b s) d targetPath)
    by (simpl; now rewrite Hb).
  rewrite liftRootDir_with_buffers. simpl fst. simpl snd.
  replace (mounts (with_buffers b s)) with (mounts s) by reflexivity.
  rewrite (readFile_mounts_settings s (with_buffers b s) d targetPath eq_refl eq_refl).
  reflexivity.
Qed.

(** X19.  With buffering off [listen] never consults the store: whatever an
    earlier configuration left in it, the response and the value returned
    are those of the same call on the object with any other store. *)
Theorem listen_unbuffered_ignores_store
    (s : MinuetWeb) (d : Disk) (d_ : Date) (req_url : string) (res : ServerResponse)
    (b : obj Buffer) :
  buffering s = false ->
  snd (fst (listen (with_buffers b s) d d_ req_url res))
  = snd (fst (listen s d d_ req_url res)) /\
  snd (listen (with_buffers b s) d d_ req_url res) = snd (listen s d d_ req_url res).
Proof.
  intros Hb. unfold listen.
  rewrite (getUrl_candidates (with_buffers b s)), (getUrl_candidates s).
  replace (directoryIndexs (with_buffers b s)) with (directoryIndexs s) by reflexivity.
  rewrite (getUrl_loop_ignores_store d b _ s _ Hb).
  pose proof (getUrl_loop_lifted d
                (map (candidateUrl (splitFirst "?" req_url)) (directoryIndexs s))
                s (splitFirst "?" req_url)) as Hl1.
  destruct (getUrl_loop s d _ (splitFirst "?" req_url)) as [s1 u]. simpl fst in *. simpl snd.
  assert (Hb1 : buffering s1 = false).
  { destruct (lifted_sameSettings _ _ Hl1) as (_ & _ & _ & H & _). congruence. }
  assert (Herr : forall s2 r0, buffering s2 = false ->
             error (with_buffers b s2) d r0 = error s2 d r0).
  { intros s2 r0 H2. unfold error. simpl. now rewrite H2. }
  destruct (String.eqb u EmptyString).
  - replace (listNavigator (with_buffers b s1)) with (listNavigator s1) by reflexivity.
    destruct (listNavigator s1).
    + replace (isDirectory (with_buffers b s1) d_ req_url res)
        with (isDirectory s1 d_ req_url res)
        by (unfold isDirectory; simpl; now rewrite Hb1).
      destruct (isDirectory s1 d_ req_url res) as [res' [[|]|e]]; lazy beta iota;
        [| rewrite (Herr s1 res' Hb1); destruct (error s1 d res') |]; now split.
    + rewrite (Herr s1 res Hb1). destruct (error s1 d res); now split.
  - rewrite (readFile_ignores_store s1 d b u Hb1).
    pose proof (readFile_lifted s1 d u) as Hl2.
    destruct (readFile s1 d u) as [s2 r]. simpl fst in *. simpl snd.
    assert (Hb2 : buffering s2 = false).
    { destruct (lifted_sameSettings _ _ Hl2) as (_ & _ & _ & H & _). congruence. }
    destruct (loaded r) as [[data type]|].
    + rewrite !respondOk_cases. unfold setHeader. simpl headers.
      destruct (setHeader_loop (set "content-type" type (headers s2))
                  (res_statusCode 200 res)) as [resH [[]|e]]; now split.
    + rewrite (Herr s2 res Hb2). destruct (error s2 d res); now split.
Qed.

Lemma listen_unbuffered_ignores_store_witness :
  snd (fst (listen (with_buffers [("/x.txt", "stale")] unbufferedNavigator)
              scenarioB_disk someDate "/x.txt" newResponse))
  = snd (fst (listen unbufferedNavigator scenarioB_disk someDate "/x.txt" newResponse)) /\
  snd (listen (with_buffers [("/x.txt", "stale")] unbufferedNavigator)
         scenarioB_disk someDate "/x.txt" newResponse)
  = snd (listen unbufferedNavigator scenarioB_disk someDate "/x.txt" newResponse).
Proof.
  apply (listen_unbuffered_ignores_store unbufferedNavigator scenarioB_disk someDate
           "/x.txt" newResponse [("/x.txt", "stale")]).
  reflexivity.
Defined.

(** ** When a rebuild throws *)

Lemma forEach_completes (A : Type) (body : MinuetWeb -> A -> MinuetWeb * completion unit)
    (ok : A -> bool) (Q : MinuetWeb -> Prop) (l : list A) :
  Forall (fun a => forall s, Q s ->
                     Q (fst (body s a)) /\ (snd (body s a) = Normal tt <-> ok a = true)) l ->
  forall s, Q s -> (snd (forEach body l s) = Normal tt <-> forallb ok l = true).
Proof.
  induction 1 as [|a l Ha _ IH]; intros s Hs; simpl; [now split|].
  destruct (Ha s Hs) as [HQ Hok]. destruct (body s a) as [s1 [[]|e]]; simpl in HQ, Hok.
  - replace (ok a) with true by (symmetry; now apply Hok). simpl. now apply IH.
  - simpl. split; [discriminate|]. intros H. apply andb_true_iff in H as [H _].
    apply Hok in H. discriminate.
Qed.

Lemma search_entry_completes (s0 : MinuetWeb) (e : Dirent) :
  forall targetPath url s,
    sameSettings s0 s ->
    (snd (search_entry targetPath url s e) = Normal tt <-> scannable_entry s0 e = true).
Proof.
  induction e as [name content | name listing IH | name | name | name size]
    using Dirent_tree_ind; intros targetPath url s Hs; simpl.
  - destruct (negb (hasMine s name)); [now split|].
    destruct (byteSize content >? bufferingMaxSize s)%Z; now split.
  - apply (forEach_completes _ _ (scannable_entry s0) (sameSettings s0)); [|exact Hs].
    rewrite Forall_forall in IH. apply Forall_forall. intros e He s1 Hs1.
    split; [|now apply IH].
    apply (search_entry_invariant (sameSettings s0)); [|exact Hs1].
    intros s' filePath content H.
    apply sameSettings_trans with s'; [exact H | apply sameSettings_addBuffer].
  - split; discriminate.
  - rewrite (sameSettings_hasMine _ _ name Hs).
    destruct (negb (hasMine s0 name)); simpl; split; reflexivity || discriminate.
  - rewrite (sameSettings_hasMine _ _ name Hs).
    destruct Hs as (_ & _ & _ & _ & -> & _).
    destruct (negb (hasMine s0 name)); simpl; [now split|].
    destruct (size >? bufferingMaxSize s0)%Z; simpl; split; reflexivity || discriminate.
Qed.

Lemma updateBuffer_mounts_completes (s0 : MinuetWeb) (d : Disk) (r : obj string) :
  forall s,
    sameSettings s0 s ->
    (snd (updateBuffer_mounts d r s) = Normal tt <->
     (forall prefix dir, In (prefix, dir) r ->
        exists listing, readdirSync d dir = Some listing /\
                        forallb (scannable_entry s0) listing = true)).
Proof.
  induction r as [|[prefix dir] r IH]; intros s Hs; simpl.
  - split; [intros _ ? ? [] | reflexivity].
  - unfold search. destruct (readdirSync d dir) as [listing|] eqn:E.
    + assert (Hlist : snd (search_list dir prefix listing s) = Normal tt
                      <-> forallb (scannable_entry s0) listing = true).
      { unfold search_list.
        apply (forEach_completes _ _ (scannable_entry s0) (sameSettings s0)); [|exact Hs].
        apply Forall_forall. intros e _ s1 Hs1.
        split; [|now apply search_entry_completes].
        apply (search_entry_invariant (sameSettings s0)); [|exact Hs1].
        intros s' filePath content H.
        apply sameSettings_trans with s'; [exact H | apply sameSettings_addBuffer]. }
      assert (Hsame : sameSettings s0 (fst (search_list dir prefix listing s))).
      { apply sameSettings_trans with s; [exact Hs | apply search_list_sameSettings]. }
      destruct (search_list dir prefix listing s) as [s1 [[]|e]]; simpl in Hlist, Hsame.
      * rewrite (IH s1 Hsame). split.
        -- intros H p q [Hpq | Hin]; [|now apply (H p q)].
           inversion Hpq; subst. exists listing. split; [exact E | now apply Hlist].
        -- intros H p q Hin. apply (H p q). now right.
      * simpl. split; [discriminate|]. intros H.
        destruct (H prefix dir (or_introl eq_refl)) as (l0 & Hl0 & Hok).
        rewrite E in Hl0. inversion Hl0; subst l0. apply Hlist in Hok. discriminate.
    + simpl. split; [discriminate|]. intros H.
      destruct (H prefix dir (or_introl eq_refl)) as (l0 & Hl0 & _). congruence.
Qed.

(** X20.  A rebuild with buffering on completes without throwing exactly
    when every mount directory can be listed and the scan of its tree
    meets no directory that cannot be listed, no entry with a known
    extension that cannot be stat'ed, and no file with a known extension
    and within the size cap that cannot be read; the configured not-found
    page, if any, can be read; and, with [listNavigator] on, the listing
    template can be read.  Nothing is caught inside. *)
Theorem updateBuffer_completes (s : MinuetWeb) (d : Disk) :
  buffering s = true ->
  (snd (updateBuffer s d) = Normal tt <->
   (forall prefix dir, In (prefix, dir) (mounts s) ->
      exists listing, readdirSync d dir = Some listing /\
                      forallb (scannable_entry s) listing = true) /\
   (forall page, notFound s = NotFoundPage page -> readFileSync d page <> None) /\
   (listNavigator s = true ->
    readFileSync d (moduleDir d ++ "/listnavigator/index.html") <> None)).
Proof.
  intros Hb. unfold updateBuffer. rewrite Hb.
  set (start := liftRootDir (with_buffers [] s)).
  assert (Hm : mounts start = mounts s)
    by (unfold start; rewrite liftRootDir_with_buffers; apply liftRootDir_mounts).
  assert (Hstart : sameSettings s start).
  { unfold start. rewrite liftRootDir_with_buffers.
    apply sameSettings_trans with (liftRootDir s); [apply sameSettings_lift|].
    unfold sameSettings; repeat split. }
  assert (Hsame : sameSettings s (fst (updateBuffer_mounts d (mounts start) start))).
  { apply (updateBuffer_mounts_invariant (sameSettings s)); [|exact Hstart].
    intros s0 filePath content Hs0.
    apply sameSettings_trans with s0; [exact Hs0 | apply sameSettings_addBuffer]. }
  pose proof (updateBuffer_mounts_completes s d (mounts start) start Hstart) as Hscan.
  rewrite Hm in *.
  destruct (updateBuffer_mounts d (mounts s) start) as [s2 [[]|e]]; simpl in Hsame, Hscan.
  - destruct Hsame as (_ & _ & _ & _ & _ & _ & Hn & _ & Hl & _).
    assert (Hdirs : forall prefix dir, In (prefix, dir) (mounts s) ->
                      exists listing, readdirSync d dir = Some listing /\
                                      forallb (scannable_entry s) listing = true)
      by now apply Hscan.
    rewrite Hn. destruct (notFound s) as [flag|page].
    + simpl. rewrite Hl. destruct (listNavigator s).
      * destruct (readFileSync d (moduleDir d ++ "/listnavigator/index.html")); simpl.
        -- split; [|reflexivity]. intros _.
           split; [exact Hdirs|]. split; [discriminate | discriminate].
        -- split; [discriminate|]. intros (_ & _ & H). now destruct H.
      * simpl. split; [|reflexivity]. intros _.
        split; [exact Hdirs|]. split; discriminate.
    + destruct (readFileSync d page) as [data|] eqn:Ep.
      * simpl. rewrite Hl. destruct (listNavigator s).
        -- destruct (readFileSync d (moduleDir d ++ "/listnavigator/index.html")); simpl.
           ++ split; [|reflexivity]. intros _. split; [exact Hdirs|].
              split; [intros p Hp; inversion Hp; subst; congruence | discriminate].
           ++ split; [discriminate|]. intros (_ & _ & H). now destruct H.
        -- simpl. split; [|reflexivity]. intros _. split; [exact Hdirs|].
           split; [intros p Hp; inversion Hp; subst; congruence | discriminate].
      * simpl. split; [discriminate|].
        intros (_ & H & _). exfalso. now apply (H page).
  - split; [discriminate|]. intros (H & _).
    apply Hscan in H. discriminate.
Qed.

Lemma updateBuffer_completes_witness :
  snd (updateBuffer missingPage pageDisk) = Normal tt <->
  (forall prefix dir, In (prefix, dir) (mounts missingPage) ->
      exists listing, readdirSync pageDisk dir = Some listing /\
                      forallb (scannable_entry missingPage) listing = true) /\
  (forall page, notFound missingPage = NotFoundPage page ->
                readFileSync pageDisk page <> None) /\
  (listNavigator missingPage = true ->
   readFileSync pageDisk (moduleDir pageDisk ++ "/listnavigator/index.html") <> None).
Proof.
  apply (updateBuffer_completes missingPage pageDisk). reflexivity.
Defined.

(** a rebuild stopped inside the tree keeps what it had stored before, and
    a file that cannot be read does not stop it when its extension is
    unknown or its size is over the cap *)
Example updateBuffer_stops_inside :
  let d := TreeDisk.disk
             [Directory "htdocs"
                [File "a.txt" "a";
                 Directory "sub" [UnreadableFile "b.md" 2; UnreadableFile "c.txt" 2];
                 File "z.txt" "z"]] "lib" in
  updateBuffer (with_buffers [("/old.txt", "old")] tinyCap) d
  = (with_rootDir (RootMap [("/", "htdocs")]) (with_buffers [("/a.txt", "a")] tinyCap),
     Throw "EACCES")
  /\ snd (updateBuffer tinyCap
            (TreeDisk.disk
               [Directory "htdocs"
                  [UnreadableFile "b.md" 2; UnreadableFile "big.txt" 4; BrokenEntry "c.md";
                   File "z.txt" "z"]] "lib")) = Normal tt.
Proof. split; reflexivity. Qed.

(** the page is missing on the other disk, and the rebuild throws *)
Example updateBuffer_throws_without_page :
  snd (updateBuffer missingPage scenarioB_disk) = Throw "ENOENT".
Proof. reflexivity. Qed.

(** ** The mime type of a stored file *)

Lemma startsWith_two_slashes (a : ascii) (rest : string) :
  Ascii.eqb a "/" = false -> startsWith "//" (String a rest) = false.
Proof. intros H. cbn [startsWith]. now rewrite Ascii.eqb_sym, H. Qed.

Lemma splitJoinFrom_no_slash (name : string) :
  NodePath.contains "/" name = false ->
  splitJoinFrom "//" "/" 0 name = name.
Proof.
  induction name as [|a name IH]; [reflexivity|].
  cbn [NodePath.contains]. intros H. apply orb_false_iff in H as [Ha Hname].
  cbn [splitJoinFrom]. rewrite (startsWith_two_slashes a name Ha).
  now rewrite IH.
Qed.

(** collapsing leaves a last segment, and the slash before it, in place *)
Lemma collapse_last_segment (name : string) :
  NodePath.contains "/" name = false ->
  forall p,
    (exists q, splitJoinFrom "//" "/" 0 (p ++ "/" ++ name) = q ++ "/" ++ name) /\
    (splitJoinFrom "//" "/" 1 (p ++ "/" ++ name) = name
     \/ exists q, splitJoinFrom "//" "/" 1 (p ++ "/" ++ name) = q ++ "/" ++ name).
Proof.
  intros Hname. induction p as [|a p [IH0 IH1]].
  - change (EmptyString ++ "/" ++ name) with (String "/" name). split.
    + exists EmptyString. cbn [splitJoinFrom].
      replace (startsWith "//" (String "/" name)) with false.
      * now rewrite splitJoinFrom_no_slash.
      * cbn [startsWith]. rewrite Ascii.eqb_refl.
        destruct name as [|b name]; [reflexivity|].
        cbn [NodePath.contains] in Hname. apply orb_false_iff in Hname as [Hb _].
        cbn [startsWith]. now rewrite Ascii.eqb_sym, Hb.
    + left. cbn [splitJoinFrom]. now apply splitJoinFrom_no_slash.
  - change ((String a p) ++ "/" ++ name) with (String a (p ++ "/" ++ name)). split.
    + cbn [splitJoinFrom]. destruct (startsWith "//" (String a (p ++ "/" ++ name))).
      * change (String.length "//" - 1) with 1.
        destruct IH1 as [-> | [q ->]]; [exists EmptyString | exists ("/" ++ q)]; reflexivity.
      * destruct IH0 as [q ->]. exists (String a q). reflexivity.
    + right. cbn [splitJoinFrom]. exact IH0.
Qed.

Lemma afterLast_no_char (c : ascii) (name : string) :
  NodePath.contains c name = false -> NodePath.afterLast c name = name.
Proof.
  destruct name as [|a name]; simpl; [reflexivity|].
  destruct (Ascii.eqb a c); [discriminate|]. simpl. now intros ->.
Qed.

Lemma contains_append (c : ascii) (q r : string) :
  NodePath.contains c (q ++ String c r) = true.
Proof.
  induction q as [|a q IH]; simpl; [now rewrite Ascii.eqb_refl|].
  rewrite IH. apply orb_true_r.
Qed.

Lemma afterLast_append (c : ascii) (q name : string) :
  NodePath.contains c name = false ->
  NodePath.afterLast c (q ++ String c name) = name.
Proof.
  intros Hname. induction q as [|a q IH]; simpl.
  - rewrite Ascii.eqb_refl. now apply afterLast_no_char.
  - rewrite contains_append, IH. now destruct (Ascii.eqb a c).
Qed.

Lemma trimTrailing_no_char (c : ascii) (name : string) :
  NodePath.contains c name = false -> NodePath.trimTrailing c name = name.
Proof.
  induction name as [|a name IH]; simpl; [reflexivity|].
  destruct (Ascii.eqb a c); [discriminate|]. simpl. now intros ->%IH.
Qed.

Lemma trimTrailing_append (c : ascii) (q name : string) :
  NodePath.contains c name = false -> name <> EmptyString ->
  NodePath.trimTrailing c (q ++ String c name) = q ++ String c name.
Proof.
  intros Hname Hne.
  assert (Hbase : NodePath.trimTrailing c (String c name) = String c name).
  { simpl. rewrite (trimTrailing_no_char c name Hname).
    destruct name; [congruence|]. simpl. now rewrite andb_false_r. }
  induction q as [|a q IH]; [exact Hbase|].
  change (String a q ++ String c name) with (String a (q ++ String c name)).
  cbn [NodePath.trimTrailing]. rewrite IH.
  destruct (q ++ String c name) eqn:E; [destruct q; discriminate|].
  simpl. now rewrite andb_false_r.
Qed.

Lemma extname_last_segment (q name : string) :
  NodePath.contains "/" name = false -> name <> EmptyString ->
  NodePath.extname (q ++ "/" ++ name) = NodePath.extname name.
Proof.
  intros Hname Hne. unfold NodePath.extname, NodePath.basename.
  change (q ++ "/" ++ name) with (q ++ String "/" name).
  rewrite (trimTrailing_append "/" q name Hname Hne), (afterLast_append "/" q name Hname).
  now rewrite (trimTrailing_no_char "/" name Hname), (afterLast_no_char "/" name Hname).
Qed.

(** the key of a file in a directory under the mount directory ends in
    the file's name, so its mime type is that of the name *)
Lemma urlKey_mime (s : MinuetWeb) (burl dir rest name : string) :
  NodePath.contains "/" name = false -> name <> EmptyString ->
  getMime s (urlKey burl dir (dir ++ rest ++ "/" ++ name)) = getMime s name.
Proof.
  intros Hname Hne. unfold getMime, urlKey, collapse, splitJoin.
  rewrite substringFrom_append, <- append_assoc.
  destruct (collapse_last_segment name Hname
              ((if String.eqb burl "/" then EmptyString else burl) ++ rest))
    as [[q ->] _].
  now rewrite (extname_last_segment q name Hname Hne).
Qed.

(** X21.  A file in a directory under a mount directory, with a name
    whose extension has a mime type, that is added under its path is
    afterwards loaded from the store with its content and with the mime
    type configured for the extension of its name: what the scan stores,
    [listen] can serve. *)
Theorem stored_file_is_served
    (s : MinuetWeb) (d : Disk) (pre post : obj string)
    (burl dir rest name : string) (data : Buffer) :
  buffering s = true ->
  mounts s = (pre ++ (burl, dir) :: post)%list ->
  (forall b r, In (b, r) post -> startsWith r (dir ++ rest ++ "/" ++ name) = false) ->
  NodePath.contains "/" name = false ->
  hasMine s name = true ->
  exists type,
    getMime s name = Some type /\ type <> EmptyString /\
    loaded (snd (readFile (addBuffer s (dir ++ rest ++ "/" ++ name) data) d
                   (urlKey burl dir (dir ++ rest ++ "/" ++ name))))
    = Some (data, type).
Proof.
  intros Hb Hm Hpost Hname Hmime.
  assert (Hne : name <> EmptyString) by (intros ->; discriminate).
  assert (Hty : exists type, getMime s name = Some type /\ type <> EmptyString).
  { unfold hasMine, getMime in *.
    destruct (String.eqb (substringFrom 1 (NodePath.extname name)) EmptyString);
      [discriminate|].
    destruct (property (substringFrom 1 (NodePath.extname name)) (mimes s)) as [type|];
      [|discriminate].
    exists type. split; [reflexivity|]. simpl in Hmime.
    intros ->. discriminate. }
  destruct Hty as (type & Hget & Htype). exists type. split; [exact Hget|].
  split; [exact Htype|].
  set (filePath := dir ++ rest ++ "/" ++ name) in *.
  assert (Hkey : buffers (addBuffer s filePath data)
                 = set (urlKey burl dir filePath) data (buffers s)).
  { rewrite addBuffer_buffers, Hm.
    now rewrite (addBuffer_fileName_last filePath pre post burl dir
                   (startsWith_append dir (rest ++ "/" ++ name)) Hpost). }
  unfold readFile.
  replace (buffering (addBuffer s filePath data)) with true
    by (destruct (sameSettings_addBuffer s filePath data) as (_ & _ & _ & H & _);
        congruence).
  rewrite Hkey, get_set_same.
  rewrite (sameSettings_getMime _ _ _ (sameSettings_addBuffer s filePath data)).
  unfold filePath. rewrite (urlKey_mime s burl dir rest name Hname Hne), Hget.
  simpl. apply String.eqb_neq in Htype. now rewrite Htype.
Qed.

Lemma stored_file_is_served_witness :
  exists type,
    getMime nestedMounts "site.css" = Some type /\ type <> EmptyString /\
    loaded (snd (readFile (addBuffer nestedMounts ("srv/sub" ++ "/css" ++ "/" ++ "site.css")
                             "body{}")
                   scenarioB_disk
                   (urlKey "/s" "srv/sub" ("srv/sub" ++ "/css" ++ "/" ++ "site.css"))))
    = Some ("body{}", type).
Proof.
  apply (stored_file_is_served nestedMounts scenarioB_disk
           [("/", "srv")] [("/t", "tmp")] "/s" "srv/sub" "/css" "site.css" "body{}").
  - reflexivity.
  - reflexivity.
  - intros b r [H | []]. inversion H; subst. reflexivity.
  - reflexivity.
  - reflexivity.
Defined.
